(** * String analyzer service: analyzer, store, filter engine and
      natural-language filter parser

    Shallow embedding of the JavaScript sources

    - [src/storage.js] (the store, followed by a copy of the analyzer),
    - [src/unnamed/part_000] (the analyzer),
    - [src/unnamed/part_001] (the store),
    - [src/server.js] and [src/unnamed/part_002] (two revisions of the
      Express application).

    JavaScript strings are sequences of UTF-16 code units and are modelled
    as [list Z]; JavaScript numbers that hold lengths, counts and parsed
    integers are modelled as [Z] (exact below 2^53, where a double holds
    every integer).  Plain objects used as dictionaries are finite maps.
    The process-wide [dataStore] is threaded explicitly through a small
    state monad. *)

From Stdlib Require Import ZArith List String Ascii Bool Lia.
From stdpp Require Import base option list gmap strings.

Local Open Scope Z_scope.

(** ** JavaScript strings *)

Module JsString.

(** A string value: its UTF-16 code units. *)
Abbreviation jsstring := (list Z).

(** An ASCII literal of the source as a string value. *)
Definition js (s : string) : jsstring :=
  (fun a => Z.of_nat (nat_of_ascii a)) <$> list_ascii_of_string s.

Definition inRange (lo hi c : Z) : bool := (lo <=? c) && (c <=? hi).

Definition isDigit (c : Z) : bool := inRange 48 57 c.          (* [0-9] *)
Definition isLowerAZ (c : Z) : bool := inRange 97 122 c.       (* [a-z] *)
Definition isUpperAZ (c : Z) : bool := inRange 65 90 c.        (* [A-Z] *)
Definition isAscii (c : Z) : bool := inRange 0 127 c.
Definition isLowerAlnum (c : Z) : bool := isLowerAZ c || isDigit c. (* [a-z0-9] *)

Definition isHighSurrogate (c : Z) : bool := inRange 55296 56319 c. (* D800-DBFF *)
Definition isLowSurrogate (c : Z) : bool := inRange 56320 57343 c.  (* DC00-DFFF *)

(** ECMAScript WhiteSpace and LineTerminator code units: the class [\s]
    of a regular expression and the characters removed by [trim]. *)
Definition isWhiteSpace (c : Z) : bool :=
  inRange 9 13 c || (c =? 32) || (c =? 160) || (c =? 5760)
  || inRange 8192 8202 c || (c =? 8232) || (c =? 8233) || (c =? 8239)
  || (c =? 8287) || (c =? 12288) || (c =? 65279).

(** What [toLowerCase] does to a code unit of an ASCII string. *)
Definition asciiLower (c : Z) : Z := if isUpperAZ c then c + 32 else c.

(** The string iterator ([for (const char of value)]): one element per
    code point; a high surrogate directly followed by a low surrogate is
    one element of two code units, any other code unit stands alone. *)
Fixpoint codePoints (s : jsstring) : list jsstring :=
  match s with
  | [] => []
  | c :: rest =>
      match rest with
      | d :: rest' =>
          if isHighSurrogate c && isLowSurrogate d
          then [c; d] :: codePoints rest'
          else [c] :: codePoints rest
      | [] => [[c]]
      end
  end.

(** Number of surrogate pairs met by the string iterator. *)
Fixpoint surrogatePairs (s : jsstring) : nat :=
  match s with
  | [] => 0%nat
  | c :: rest =>
      match rest with
      | d :: rest' =>
          if isHighSurrogate c && isLowSurrogate d
          then S (surrogatePairs rest')
          else surrogatePairs rest
      | [] => 0%nat
      end
  end.

Fixpoint dropWhile {A} (p : A -> bool) (l : list A) : list A :=
  match l with
  | [] => []
  | x :: l' => if p x then dropWhile p l' else l
  end.

Fixpoint takeWhile {A} (p : A -> bool) (l : list A) : list A :=
  match l with
  | [] => []
  | x :: l' => if p x then x :: takeWhile p l' else []
  end.

(** [str.trim()] *)
Definition trim (s : jsstring) : jsstring :=
  rev (dropWhile isWhiteSpace (rev (dropWhile isWhiteSpace s))).

(** [str.split(/\s+/)]: the pieces between maximal runs of white space;
    a run at either end leaves an empty piece there. [inRun] tells that
    the previous code unit was white space, [cur] is the piece read so
    far. *)
Fixpoint splitWhiteSpaceFrom (inRun : bool) (cur : jsstring) (s : jsstring)
  : list jsstring :=
  match s with
  | [] => [cur]
  | c :: rest =>
      if isWhiteSpace c
      then (if inRun then splitWhiteSpaceFrom true cur rest
            else cur :: splitWhiteSpaceFrom true [] rest)
      else splitWhiteSpaceFrom false (cur ++ [c]) rest
  end.

Definition splitWhiteSpace (s : jsstring) : list jsstring :=
  splitWhiteSpaceFrom false [] s.

(** [s] starts with [p]: the rest of [s] after [p]. *)
Fixpoint stripPrefix (p s : jsstring) : option jsstring :=
  match p, s with
  | [], _ => Some s
  | a :: p', b :: s' => if a =? b then stripPrefix p' s' else None
  | _ :: _, [] => None
  end.

(** [s.includes(p)] *)
Fixpoint includes (s p : jsstring) : bool :=
  match stripPrefix p s with
  | Some _ => true
  | None => match s with
            | [] => false
            | _ :: s' => includes s' p
            end
  end.

(** Value of a run of decimal digits, most significant first. *)
Definition digitsValue (ds : jsstring) : Z :=
  fold_left (fun acc d => 10 * acc + (d - 48)) ds 0.

End JsString.
Export JsString.

(** ** [parseInt] and the regular expressions of the parser *)

Module JsRuntime.

(** Value of a code unit as a digit: [0-9] are 0..9, letters of either
    case are 10..35. *)
Definition digitOf (c : Z) : option Z :=
  if isDigit c then Some (c - 48)
  else if isLowerAZ c then Some (c - 97 + 10)
  else if isUpperAZ c then Some (c - 65 + 10)
  else None.

Definition isRadixDigit (R c : Z) : bool :=
  match digitOf c with
  | Some d => d <? R
  | None => false
  end.

Definition radixValue (R : Z) (ds : jsstring) : Z :=
  fold_left (fun acc c => R * acc + default 0 (digitOf c)) ds 0.

(** [parseInt(string, radix)] (ECMAScript 19.2.5) on a string argument;
    [radix = None] is the call with one argument.  [None] as a result is
    NaN.  Leading white space is skipped, one sign is read, [0x] selects
    radix 16 when no other radix was asked for (or 16 was), and the
    longest prefix of digits of the radix is the value: whatever follows
    it is ignored.  The value is the integer the digits denote, as in
    JavaScript below 2^53; from there on JavaScript rounds to a double, and
    statements about the value of a run of digits carry that bound
    ([safeInteger] below). *)
Definition parseInt (s : jsstring) (radix : option Z) : option Z :=
  let s1 := dropWhile isWhiteSpace s in
  let '(sign, s2) :=
    match s1 with
    | c :: t =>
        if c =? 45 then (-1, t)            (* "-" *)
        else if c =? 43 then (1, t)        (* "+" *)
        else (1, s1)
    | [] => (1, s1)
    end in
  let R0 := default 0 radix in
  if negb (R0 =? 0) && ((R0 <? 2) || (36 <? R0)) then None
  else
    let stripPrefix := (R0 =? 0) || (R0 =? 16) in
    let R1 := if R0 =? 0 then 10 else R0 in
    let '(R, s3) :=
      match s2 with
      | c :: x :: t =>
          if stripPrefix && (c =? 48) && ((x =? 120) || (x =? 88))   (* 0x, 0X *)
          then (16, t)
          else (R1, s2)
      | _ => (R1, s2)
      end in
    let ds := takeWhile (isRadixDigit R) s3 in
    match ds with
    | [] => None
    | _ :: _ => Some (sign * radixValue R ds)
    end.

(** [str.match(re)] for a regular expression without the [g] flag whose
    attempt at one position is [here]: the leftmost position where the
    attempt succeeds gives the result. *)
Fixpoint regexSearch {A} (here : jsstring -> option A) (s : jsstring) : option A :=
  match here s with
  | Some r => Some r
  | None => match s with
            | [] => None
            | _ :: s' => regexSearch here s'
            end
  end.

(** One attempt of [/<word>\s+(\d+)/] at the start of [s]: the captured
    digits.  [\s+] and [\d+] are greedy, and since no digit is white
    space, giving back white space never helps. *)
Definition wordThenNumber (word : jsstring) (s : jsstring) : option jsstring :=
  match stripPrefix word s with
  | None => None
  | Some rest =>
      match takeWhile isWhiteSpace rest with
      | [] => None
      | _ =>
          match takeWhile isDigit (dropWhile isWhiteSpace rest) with
          | [] => None
          | ds => Some ds
          end
      end
  end.

(** One attempt of [/(contains|letter)\s+(<class>)/] at the start of [s]:
    the code unit captured by the last group. *)
Definition containsOrLetter (class : Z -> bool) (s : jsstring) : option jsstring :=
  let afterWord :=
    match stripPrefix (js "contains") s with
    | Some rest => Some rest
    | None => stripPrefix (js "letter") s
    end in
  match afterWord with
  | None => None
  | Some rest =>
      match takeWhile isWhiteSpace rest with
      | [] => None
      | _ =>
          match dropWhile isWhiteSpace rest with
          | c :: _ => if class c then Some [c] else None
          | [] => None
          end
      end
  end.

End JsRuntime.
Export JsRuntime.

(** ** The analyzer ([src/unnamed/part_000]; [src/storage.js], lines 51-93)

    The two copies of [analyzeString] compute the same object for every
    string argument; the copy in [part_000] first converts an argument
    that is not a string with [String(value)]. *)

Module Properties.
(** The object returned by [analyzeString]. *)
Record t := mk {
  length : Z;
  is_palindrome : bool;
  unique_characters : Z;
  word_count : Z;
  sha256_hash : jsstring;
  character_frequency_map : gmap (list Z) Z
}.
End Properties.

Section Analyzer.

(** [String.prototype.toLowerCase]: the Unicode case mapping is a table of
    the language, not of this repository.  On a string of ASCII code units
    it maps [A-Z] to [a-z] and leaves the rest. *)
Variable toLowerCase : jsstring -> jsstring.

(** [crypto.createHash('sha256').update(value, 'utf8').digest('hex')] *)
Variable sha256_hex : jsstring -> jsstring.

(** [str.toLowerCase().replace(/[^a-z0-9]/g, '')] *)
Definition normalizeForPalindrome (str : jsstring) : jsstring :=
  filter (fun c => Is_true (isLowerAlnum c)) (toLowerCase str).

(** One turn of the loop
    [character_frequency_map[char] = (character_frequency_map[char] || 0) + 1]. *)
Definition countChar (m : gmap (list Z) Z) (char : jsstring) : gmap (list Z) Z :=
  <[char := default 0 (m !! char) + 1]> m.

Definition frequencyMap (value : jsstring) : gmap (list Z) Z :=
  foldl countChar ∅ (codePoints value).

(** [normalized.split('').reverse().join('')] *)
Definition splitReverseJoin (s : jsstring) : jsstring :=
  concat (rev ((fun c => [c]) <$> s)).

Definition wordCount (value : jsstring) : Z :=
  let trimmed := trim value in
  if 0 <? Z.of_nat (List.length trimmed)
  then Z.of_nat (List.length (splitWhiteSpace trimmed))
  else 0.

Definition analyzeString (value : jsstring) : Properties.t :=
  let hash := sha256_hex value in
  let normalized := normalizeForPalindrome value in
  let character_frequency_map := frequencyMap value in
  let word_count := wordCount value in
  let is_palindrome := bool_decide (normalized = splitReverseJoin normalized) in
  {| Properties.length := Z.of_nat (List.length value);
     Properties.is_palindrome := is_palindrome;
     Properties.unique_characters := Z.of_nat (size character_frequency_map);
     Properties.word_count := word_count;
     Properties.sha256_hash := hash;
     Properties.character_frequency_map := character_frequency_map |}.

End Analyzer.

(** Sum of the occurrence counts of a frequency map. *)
Definition sumCounts (m : gmap (list Z) Z) : Z :=
  map_fold (fun _ n acc => n + acc) 0 m.

(** The ASCII instance of [toLowerCase], and a stand-in digest, used to
    run the model on ASCII inputs. *)
Definition asciiToLowerCase (s : jsstring) : jsstring := asciiLower <$> s.
Definition plainDigest (s : jsstring) : jsstring := s.

(** ** The store ([src/storage.js], lines 1-50; [src/unnamed/part_001]) *)

Module Entry.
(** A stored record. *)
Record t := mk {
  id : jsstring;
  value : jsstring;
  properties : Properties.t;
  created_at : jsstring
}.
End Entry.

(** The argument [{ value, properties }] of [create]. *)
Record EntryData := {
  data_value : jsstring;
  data_properties : Properties.t
}.

(** [dataStore]: the own properties of the object in creation order, which
    is the order of [Object.values] for keys that are not array indices
    (the keys written by the application are 64-digit hexadecimal digests).
    A well-formed store holds a key once.

    [dataStore] is a plain object: a lookup also finds what it inherits
    from [Object.prototype] (under "constructor", "toString", ...), and
    [Object.values] lists array-index keys ("0", "1", ...) first.  The
    list below has neither; it is the object exactly for keys that are
    64-digit hexadecimal digests ([isDigest] below), and statements about
    arbitrary ids are made for those. *)
Abbreviation Store := (list (list Z * Entry.t)).

(** [dataStore[id]], for an [id] that names no member of
    [Object.prototype]. *)
Fixpoint storeGet (st : Store) (id : jsstring) : option Entry.t :=
  match st with
  | [] => None
  | (k, e) :: st' => if bool_decide (k = id) then Some e else storeGet st' id
  end.

(** [dataStore[id] = entry]: an existing key keeps its place, a new key
    that is not an array index comes last. *)
Fixpoint storeSet (st : Store) (id : jsstring) (entry : Entry.t) : Store :=
  match st with
  | [] => [(id, entry)]
  | (k, e) :: st' =>
      if bool_decide (k = id) then (k, entry) :: st'
      else (k, e) :: storeSet st' id entry
  end.

(** [delete dataStore[id]] *)
Definition storeDelete (st : Store) (id : jsstring) : Store :=
  filter (fun kv => kv.1 <> id) st.

(** Computations over the store: the state of the module is passed in and
    the state it leaves is returned with the result. *)
Definition M (A : Type) : Type := Store -> A * Store.

Definition ret {A} (a : A) : M A := fun st => (a, st).
Definition bind {A B} (m : M A) (k : A -> M B) : M B :=
  fun st => let '(a, st') := m st in k a st'.
Definition readStore : M Store := fun st => (st, st).
Definition writeStore (st' : Store) : M unit := fun _ => (tt, st').

Notation "'let*' x ':=' m 'in' k" := (bind m (fun x => k))
  (at level 10, x name, m at level 100, k at level 200).

(** What the server requires of [./services/storage].  [now] is the
    reading of the clock, [new Date().toISOString()]. *)
Module Storage.
Record api := {
  create : jsstring -> EntryData -> jsstring -> M (option Entry.t);
  getById : jsstring -> M (option Entry.t);
  getAll : M (list Entry.t);
  deleteById : jsstring -> M bool
}.
End Storage.

Module StorageJs.
(** [src/storage.js] *)

(** [data] is [None] for a null or undefined argument. *)
Definition create (id : jsstring) (data : option EntryData) (now : jsstring)
  : M (option Entry.t) :=
  match id, data with
  | [], _ | _, None => ret None                       (* !id || !data *)
  | _ :: _, Some data =>
      let* dataStore := readStore in
      match storeGet dataStore id with
      | Some _ => ret None                             (* Duplicate (conflict) *)
      | None =>
          let entry := {| Entry.id := id;
                          Entry.value := data_value data;
                          Entry.properties := data_properties data;
                          Entry.created_at := now |} in
          let* _ := writeStore (storeSet dataStore id entry) in
          ret (Some entry)
      end
  end.

Definition getById (id : jsstring) : M (option Entry.t) :=
  let* dataStore := readStore in ret (storeGet dataStore id).

Definition getAll : M (list Entry.t) :=
  let* dataStore := readStore in ret (snd <$> dataStore).

Definition deleteById (id : jsstring) : M bool :=
  let* dataStore := readStore in
  match storeGet dataStore id with
  | None => ret false
  | Some _ => let* _ := writeStore (storeDelete dataStore id) in ret true
  end.

Definition storage : Storage.api :=
  {| Storage.create := fun id data now => create id (Some data) now;
     Storage.getById := getById;
     Storage.getAll := getAll;
     Storage.deleteById := deleteById |}.

End StorageJs.

Module Part001.
(** [src/unnamed/part_001] *)

Definition create (id : jsstring) (data : EntryData) (now : jsstring)
  : M (option Entry.t) :=
  let* dataStore := readStore in
  match storeGet dataStore id with
  | Some _ => ret None                   (* Conflict (String already exists) *)
  | None =>
      let fullEntry := {| Entry.id := id;
                          Entry.value := data_value data;
                          Entry.properties := data_properties data;
                          Entry.created_at := now |} in
      let* _ := writeStore (storeSet dataStore id fullEntry) in
      ret (Some fullEntry)
  end.

Definition getById (id : jsstring) : M (option Entry.t) :=
  let* dataStore := readStore in ret (storeGet dataStore id).

Definition getAll : M (list Entry.t) :=
  let* dataStore := readStore in ret (snd <$> dataStore).

Definition deleteById (id : jsstring) : M bool :=
  let* dataStore := readStore in
  match storeGet dataStore id with
  | Some _ => let* _ := writeStore (storeDelete dataStore id) in ret true
  | None => ret false                                  (* Not Found *)
  end.

Definition storage : Storage.api :=
  {| Storage.create := create;
     Storage.getById := getById;
     Storage.getAll := getAll;
     Storage.deleteById := deleteById |}.

End Part001.

(** ** Requests, responses and the filter engine *)

Module Filters.
(** [filtersApplied] / [parsedFilters]: a field that was never assigned is
    [None] ([undefined]). *)
Record t := mk {
  is_palindrome : option bool;
  min_length : option Z;
  max_length : option Z;
  word_count : option Z;
  contains_character : option jsstring
}.

(** [{}] *)
Definition empty : t := mk None None None None None.

Definition set_is_palindrome (v : bool) (f : t) : t :=
  mk (Some v) (min_length f) (max_length f) (word_count f) (contains_character f).
Definition set_min_length (v : Z) (f : t) : t :=
  mk (is_palindrome f) (Some v) (max_length f) (word_count f) (contains_character f).
Definition set_max_length (v : Z) (f : t) : t :=
  mk (is_palindrome f) (min_length f) (Some v) (word_count f) (contains_character f).
Definition set_word_count (v : Z) (f : t) : t :=
  mk (is_palindrome f) (min_length f) (max_length f) (Some v) (contains_character f).
Definition set_contains_character (v : jsstring) (f : t) : t :=
  mk (is_palindrome f) (min_length f) (max_length f) (word_count f) (Some v).
End Filters.

Inductive Method := GET | POST | DELETE | PUT.

(** [req.body.value] after [bodyParser.json()]. *)
Inductive BodyValue :=
| ValueUndefined
| ValueString (s : jsstring)
| ValueOther.

(** A request.  [path] holds the segments of the path (what stands between
    the slashes, percent-decoded); [query] holds the parameters of the
    query string that carry one string value.  Express compares a literal
    segment of a route with the segment as sent and decodes only what a
    parameter captures: for a segment sent without percent-escapes the two
    are the same text, and a literal route is considered for such paths. *)
Record Request := {
  method : Method;
  path : list jsstring;
  query : gmap string (list Z);
  body_value : BodyValue
}.

Inductive Body :=
| ErrorBody (error : string)                         (* { error: message } *)
| EntryBody (entry : Entry.t)
| FilteredBody (data : list Entry.t) (count : Z) (filters_applied : Filters.t)
| InterpretedBody (data : list Entry.t) (count : Z)
    (original : jsstring) (parsed_filters : Filters.t)
| NoBody.

Record Response := {
  status : Z;
  body : Body
}.

(** [res.status(status).json({ error: message })] *)
Definition sendError (status : Z) (message : string) : Response :=
  {| status := status; body := ErrorBody message |}.

(** The double quote inside a message. *)
Definition quote : string := String (ascii_of_nat 34) EmptyString.

(** [if (filters.x !== undefined && <test fails>) return false] *)
Definition holdsWhenSet {A} (o : option A) (test : A -> bool) : bool :=
  match o with
  | Some v => test v
  | None => true
  end.

(** The callback given to [filter], the same in the four places where it
    is written: every filter that is set must hold. *)
Definition passesFilters (f : Filters.t) (entry : Entry.t) : bool :=
  let p := Entry.properties entry in
  holdsWhenSet (Filters.is_palindrome f)
    (fun b => Bool.eqb (Properties.is_palindrome p) b)
  && holdsWhenSet (Filters.min_length f) (fun n => negb (Properties.length p <? n))
  && holdsWhenSet (Filters.max_length f) (fun n => negb (n <? Properties.length p))
  && holdsWhenSet (Filters.word_count f) (fun n => Properties.word_count p =? n)
  && holdsWhenSet (Filters.contains_character f)
       (fun char => match Properties.character_frequency_map p !! char with
                    | Some n => negb (n =? 0)
                    | None => false
                    end).

(** *** Validation of the query parameters of [GET /strings]

    The body of the [try] block: each step either assigns a field of
    [filtersApplied] or throws an [Error] with a message. *)

Definition checkIsPalindrome (q : gmap string (list Z)) (f : Filters.t)
  : string + Filters.t :=
  match q !! "is_palindrome"%string with
  | None => inr f
  | Some v =>
      if bool_decide (v = js "true") then inr (Filters.set_is_palindrome true f)
      else if bool_decide (v = js "false") then inr (Filters.set_is_palindrome false f)
      else inl ("is_palindrome must be " +:+ quote +:+ "true" +:+ quote
                +:+ " or " +:+ quote +:+ "false" +:+ quote)%string
  end.

(** [const n = parseInt(v, radix); if (isNaN(n) || n < 0) throw ...] *)
Definition checkInteger (radix : option Z) (field : string)
    (set : Z -> Filters.t -> Filters.t)
    (q : gmap string (list Z)) (f : Filters.t) : string + Filters.t :=
  match q !! field with
  | None => inr f
  | Some v =>
      match parseInt v radix with
      | None => inl (field +:+ " must be a positive integer")%string
      | Some n =>
          if n <? 0 then inl (field +:+ " must be a positive integer")%string
          else inr (set n f)
      end
  end.

Definition checkContainsCharacter (q : gmap string (list Z)) (f : Filters.t)
  : string + Filters.t :=
  match q !! "contains_character"%string with
  | None => inr f
  | Some v =>
      if bool_decide (List.length v = 1%nat)
      then inr (Filters.set_contains_character v f)
      else inl "contains_character must be a single character string"%string
  end.

Definition andThen {E A B} (r : E + A) (k : A -> E + B) : E + B :=
  match r with
  | inl e => inl e
  | inr a => k a
  end.

Definition validateQuery (radix : option Z) (q : gmap string (list Z))
  : string + Filters.t :=
  andThen (checkIsPalindrome q Filters.empty) (fun f =>
  andThen (checkInteger radix "min_length" Filters.set_min_length q f) (fun f =>
  andThen (checkInteger radix "max_length" Filters.set_max_length q f) (fun f =>
  andThen (checkInteger radix "word_count" Filters.set_word_count q f) (fun f =>
  checkContainsCharacter q f)))).

(** ** Routing (Express)

    [app.METHOD(path, handler)] appends a route; a request is given to
    the first route, in the order of registration, whose method and path
    match.  None of the handlers calls [next], so later routes never see a
    request an earlier one took.  A path matches segment by segment: a
    literal segment without regard to ASCII case, a [:name] parameter any
    non-empty segment. *)

Inductive Segment :=
| Lit (s : string)
| Param (name : string).

Fixpoint matchSegments (pattern : list Segment) (segments : list jsstring)
  : option (list (string * list Z)) :=
  match pattern, segments with
  | [], [] => Some []
  | Lit s :: pattern', seg :: segments' =>
      if bool_decide (asciiLower <$> seg = asciiLower <$> js s)
      then matchSegments pattern' segments'
      else None
  | Param name :: pattern', seg :: segments' =>
      match seg with
      | [] => None
      | _ :: _ => (fun params => (name, seg) :: params) <$> matchSegments pattern' segments'
      end
  | _, _ => None
  end.

Definition methodEq (a b : Method) : bool :=
  match a, b with
  | GET, GET | POST, POST | DELETE, DELETE | PUT, PUT => true
  | _, _ => false
  end.

(** [req.params[name]] *)
Fixpoint param (params : list (string * list Z)) (name : string) : jsstring :=
  match params with
  | [] => []
  | (k, v) :: params' => if bool_decide (k = name) then v else param params' name
  end.

(** The routes of an application in the order of registration, and the
    route that takes a request. *)
Fixpoint dispatch {H} (routes : list (Method * list Segment * H)) (req : Request)
  : option (H * list (string * list Z)) :=
  match routes with
  | [] => None
  | (m, pattern, h) :: routes' =>
      if methodEq m (method req)
      then match matchSegments pattern (path req) with
           | Some params => Some (h, params)
           | None => dispatch routes' req
           end
      else dispatch routes' req
  end.

(** The handlers an application registers. *)
Inductive Handler :=
| PostStrings                  (* app.post('/strings') *)
| GetString                    (* app.get('/strings/:stringValue') *)
| GetStrings                   (* app.get('/strings') *)
| FilterByNaturalLanguage      (* app.get('/strings/filter-by-natural-language') *)
| DeleteString.                (* app.delete('/strings/:stringValue') *)

(** ** Handlers written the same way in both revisions of the server *)

Section Handlers.

Variable toLowerCase : jsstring -> jsstring.
Variable sha256_hex : jsstring -> jsstring.
Variable storage : Storage.api.

(** [app.post('/strings', ...)] *)
Definition postStrings (req : Request) (now : jsstring) : M Response :=
  match body_value req with
  | ValueUndefined =>
      ret (sendError 400
             ("Missing " +:+ quote +:+ "value" +:+ quote +:+ " field in request body"))
  | ValueOther =>
      ret (sendError 422
             ("Invalid data type for " +:+ quote +:+ "value" +:+ quote
              +:+ " (must be string)"))
  | ValueString value =>
      let properties := analyzeString toLowerCase sha256_hex value in
      let id := Properties.sha256_hash properties in
      let* newEntry :=
        Storage.create storage id
          {| data_value := value; data_properties := properties |} now in
      match newEntry with
      | None => ret (sendError 409 "String already exists in the system")
      | Some entry => ret {| status := 201; body := EntryBody entry |}
      end
  end.

(** [app.get('/strings/:stringValue', ...)] *)
Definition getString (stringValue : jsstring) : M Response :=
  let properties := analyzeString toLowerCase sha256_hex stringValue in
  let id := Properties.sha256_hash properties in
  let* entry := Storage.getById storage id in
  match entry with
  | None => ret (sendError 404 "String does not exist in the system")
  | Some entry => ret {| status := 200; body := EntryBody entry |}
  end.

(** [app.get('/strings', ...)]; [radix] is the second argument the
    revision gives to [parseInt]. *)
Definition getStrings (radix : option Z) (req : Request) : M Response :=
  let* allStrings := Storage.getAll storage in
  match validateQuery radix (query req) with
  | inl message =>
      ret (sendError 400 ("Invalid query parameter: " +:+ message))
  | inr filtersApplied =>
      let filteredData := List.filter (passesFilters filtersApplied) allStrings in
      ret {| status := 200;
             body := FilteredBody filteredData
                       (Z.of_nat (List.length filteredData)) filtersApplied |}
  end.

(** [app.delete('/strings/:stringValue', ...)] *)
Definition deleteString (stringValue : jsstring) : M Response :=
  let properties := analyzeString toLowerCase sha256_hex stringValue in
  let id := Properties.sha256_hash properties in
  let* deleted := Storage.deleteById storage id in
  if deleted : bool
  then ret {| status := 204; body := NoBody |}
  else ret (sendError 404 "String does not exist in the system").

(** The second half of the natural-language handler, after the filters
    were parsed and found free of conflict. *)
Definition respondInterpreted (query : jsstring) (parsedFilters : Filters.t)
  : M Response :=
  let* allStrings := Storage.getAll storage in
  let filteredData := List.filter (passesFilters parsedFilters) allStrings in
  ret {| status := 200;
         body := InterpretedBody filteredData
                   (Z.of_nat (List.length filteredData)) query parsedFilters |}.

(** Express answers 404 itself when no route takes the request. *)
Definition notRouted : M Response :=
  ret {| status := 404; body := NoBody |}.

(** The application: the route found by [dispatch] runs its handler. *)
Definition serve (routes : list (Method * list Segment * Handler))
    (radix : option Z) (filterByNaturalLanguage : Request -> M Response)
    (req : Request) (now : jsstring) : M Response :=
  match dispatch routes req with
  | None => notRouted
  | Some (PostStrings, _) => postStrings req now
  | Some (GetString, params) => getString (param params "stringValue")
  | Some (GetStrings, _) => getStrings radix req
  | Some (FilterByNaturalLanguage, _) => filterByNaturalLanguage req
  | Some (DeleteString, params) => deleteString (param params "stringValue")
  end.

End Handlers.

(** ** [src/server.js] *)

Module ServerJs.

Definition routes : list (Method * list Segment * Handler) :=
  [ (POST, [Lit "strings"], PostStrings);
    (GET, [Lit "strings"; Param "stringValue"], GetString);
    (GET, [Lit "strings"], GetStrings);
    (GET, [Lit "strings"; Lit "filter-by-natural-language"], FilterByNaturalLanguage);
    (DELETE, [Lit "strings"; Param "stringValue"], DeleteString) ].

(** The rules of the handler, applied in order to [parsedFilters = {}].
    The captured group of a length rule is a non-empty run of digits, on
    which [parseInt] is never NaN. *)
Definition parseFilters (lowerQuery : jsstring) : Filters.t :=
  let f := Filters.empty in
  let f := if includes lowerQuery (js "palindrome")
              || includes lowerQuery (js "palindromic")
           then Filters.set_is_palindrome true f else f in
  let f := if includes lowerQuery (js "single word")
           then Filters.set_word_count 1 f else f in
  let f := match regexSearch (wordThenNumber (js "longer than")) lowerQuery with
           | Some digits =>
               match parseInt digits None with
               | Some length => Filters.set_min_length (length + 1) f
               | None => f
               end
           | None => f
           end in
  let f := match regexSearch (containsOrLetter isLowerAZ) lowerQuery with
           | Some c => Filters.set_contains_character c f
           | None => f
           end in
  let f := if includes lowerQuery (js "first vowel")
           then Filters.set_contains_character (js "a") f else f in
  f.

(** [min_length !== undefined && max_length !== undefined
     && min_length > max_length] *)
Definition conflicting (f : Filters.t) : bool :=
  match Filters.min_length f, Filters.max_length f with
  | Some lo, Some hi => hi <? lo
  | _, _ => false
  end.

Section App.

Variable toLowerCase : jsstring -> jsstring.
Variable sha256_hex : jsstring -> jsstring.
Variable storage : Storage.api.

(** [app.get('/strings/filter-by-natural-language', ...)] *)
Definition filterByNaturalLanguage (req : Request) : M Response :=
  match query req !! "query"%string with
  | None | Some [] =>
      ret (sendError 400
             ("Missing " +:+ quote +:+ "query" +:+ quote
              +:+ " parameter for natural language filtering"))
  | Some query =>
      let lowerQuery := toLowerCase query in
      let parsedFilters := parseFilters lowerQuery in
      if conflicting parsedFilters
      then ret (sendError 422
                  "Query parsed but resulted in conflicting length filters")
      else respondInterpreted storage query parsedFilters
  end.

Definition app (req : Request) (now : jsstring) : M Response :=
  serve toLowerCase sha256_hex storage routes None filterByNaturalLanguage req now.

End App.

End ServerJs.

(** ** [src/unnamed/part_002] *)

Module Part002.

Definition routes : list (Method * list Segment * Handler) :=
  [ (POST, [Lit "strings"], PostStrings);
    (GET, [Lit "strings"; Lit "filter-by-natural-language"], FilterByNaturalLanguage);
    (GET, [Lit "strings"; Param "stringValue"], GetString);
    (GET, [Lit "strings"], GetStrings);
    (DELETE, [Lit "strings"; Param "stringValue"], DeleteString) ].

(** The rules of the handler, applied in order to [parsedFilters = {}]. *)
Definition parseFilters (lowerQuery : jsstring) : Filters.t :=
  let f := Filters.empty in
  let f := if includes lowerQuery (js "palindrome")
              || includes lowerQuery (js "palindromic")
           then Filters.set_is_palindrome true f else f in
  let f := if includes lowerQuery (js "single word")
              || includes lowerQuery (js "one word")
           then Filters.set_word_count 1 f else f in
  let f := match regexSearch (wordThenNumber (js "longer than")) lowerQuery with
           | Some digits =>
               match parseInt digits (Some 10) with
               | Some n => Filters.set_min_length (n + 1) f
               | None => f
               end
           | None => f
           end in
  let f := match regexSearch (wordThenNumber (js "shorter than")) lowerQuery with
           | Some digits =>
               match parseInt digits (Some 10) with
               | Some n => Filters.set_max_length (n - 1) f
               | None => f
               end
           | None => f
           end in
  let f := match regexSearch (containsOrLetter isLowerAlnum) lowerQuery with
           | Some c => Filters.set_contains_character c f
           | None => f
           end in
  let f := if includes lowerQuery (js "first vowel")
           then Filters.set_contains_character (js "a") f else f in
  f.

(** A number in a condition: [undefined] and [0] are false. *)
Definition truthy (n : option Z) : bool :=
  match n with
  | Some v => negb (v =? 0)
  | None => false
  end.

(** [min_length && max_length && min_length > max_length] *)
Definition conflicting (f : Filters.t) : bool :=
  truthy (Filters.min_length f) && truthy (Filters.max_length f)
  && match Filters.min_length f, Filters.max_length f with
     | Some lo, Some hi => hi <? lo
     | _, _ => false
     end.

Section App.

Variable toLowerCase : jsstring -> jsstring.
Variable sha256_hex : jsstring -> jsstring.
Variable storage : Storage.api.

(** [app.get('/strings/filter-by-natural-language', ...)] *)
Definition filterByNaturalLanguage (req : Request) : M Response :=
  match query req !! "query"%string with
  | None | Some [] =>
      ret (sendError 400
             ("Missing " +:+ quote +:+ "query" +:+ quote
              +:+ " parameter for natural language filtering"))
  | Some query =>
      let lowerQuery := toLowerCase query in
      let parsedFilters := parseFilters lowerQuery in
      if conflicting parsedFilters
      then ret (sendError 422
                  "Query parsed but resulted in conflicting length filters")
      else respondInterpreted storage query parsedFilters
  end.

Definition app (req : Request) (now : jsstring) : M Response :=
  serve toLowerCase sha256_hex storage routes (Some 10) filterByNaturalLanguage req now.

End App.

End Part002.

(** ** Requests used in the statements *)

(** [GET /strings/filter-by-natural-language?query=<q>], with whatever
    other parameters [others] holds. *)
Definition naturalLanguageRequest (others : gmap string (list Z)) (q : jsstring)
  : Request :=
  {| method := GET;
     path := [js "strings"; js "filter-by-natural-language"];
     query := <["query"%string := q]> others;
     body_value := ValueUndefined |}.

(** [GET /strings?<parameters>] *)
Definition stringsRequest (parameters : gmap string (list Z)) : Request :=
  {| method := GET;
     path := [js "strings"];
     query := parameters;
     body_value := ValueUndefined |}.

(** [POST /strings] with the body [{ "value": <value> }] *)
Definition postRequest (value : jsstring) : Request :=
  {| method := POST;
     path := [js "strings"];
     query := ∅;
     body_value := ValueString value |}.

(** The code unit of U+1F600, a character outside the Basic Multilingual
    Plane, as JavaScript holds it. *)
Definition grinningFace : jsstring := [55357; 56832].

(** A computation that leaves the store as it found it, whatever the
    store. *)
Definition readOnly {A} (m : M A) : Prop :=
  forall st : Store, snd (m st) = st.

(** The two revisions of the application on the two revisions of the
    store module. *)
Definition applications (toLowerCase sha256_hex : jsstring -> jsstring)
  : list (Request -> jsstring -> M Response) :=
  [ ServerJs.app toLowerCase sha256_hex StorageJs.storage;
    ServerJs.app toLowerCase sha256_hex Part001.storage;
    Part002.app toLowerCase sha256_hex StorageJs.storage;
    Part002.app toLowerCase sha256_hex Part001.storage ].

(** The store modules an application may be linked with. *)
Definition storages : list Storage.api := [StorageJs.storage; Part001.storage].

(** A store that holds one record, for "Madam". *)
Definition madamEntry : Entry.t :=
  {| Entry.id := plainDigest (js "Madam");
     Entry.value := js "Madam";
     Entry.properties := analyzeString asciiToLowerCase plainDigest (js "Madam");
     Entry.created_at := js "2025-10-20T10:00:00.000Z" |}.

Definition madamStore : Store := [(Entry.id madamEntry, madamEntry)].

(** The query string [?<field>=<v>]. *)
Definition oneParameter (field : string) (v : jsstring) : gmap string (list Z) :=
  {[ field := v ]}.

(** The second argument of [parseInt] in [src/server.js] (none) and in
    [src/unnamed/part_002] (10). *)
Definition radixes : list (option Z) := [None; Some 10].

(** ** Notions used in the statements about the rest of the code *)

(** Number of maximal runs of code units that are not white space.
    [afterSpace] tells that no such run is under way: the string starts
    here or the previous code unit was white space. *)
Fixpoint wordRuns (afterSpace : bool) (s : jsstring) : nat :=
  match s with
  | [] => 0%nat
  | c :: rest =>
      if isWhiteSpace c then wordRuns true rest
      else ((if afterSpace then 1 else 0) + wordRuns false rest)%nat
  end.

(** Number of times the string iterator yields [char]. *)
Definition occurrences (char value : jsstring) : nat :=
  List.length (List.filter (fun x => bool_decide (x = char)) (codePoints value)).

(** A store as [dataStore] can be: each key once, and under a key a record
    with that id. *)
Definition wellFormed (st : Store) : Prop :=
  NoDup (fst <$> st) /\ Forall (fun kv => Entry.id kv.2 = kv.1) st.

(** A store whose records are what [POST /strings] writes: the key is the
    digest of the value and the properties are those of the value. *)
Definition contentAddressed (toLowerCase sha256_hex : jsstring -> jsstring)
    (st : Store) : Prop :=
  Forall (fun kv =>
            kv.1 = sha256_hex (Entry.value kv.2)
            /\ Entry.properties kv.2
               = analyzeString toLowerCase sha256_hex (Entry.value kv.2)) st.

(** What the filters ask of the properties of a record. *)
Definition satisfies (f : Filters.t) (p : Properties.t) : Prop :=
  (forall b, Filters.is_palindrome f = Some b -> Properties.is_palindrome p = b)
  /\ (forall n, Filters.min_length f = Some n -> n <= Properties.length p)
  /\ (forall n, Filters.max_length f = Some n -> Properties.length p <= n)
  /\ (forall n, Filters.word_count f = Some n -> Properties.word_count p = n)
  /\ (forall char, Filters.contains_character f = Some char ->
        exists n, Properties.character_frequency_map p !! char = Some n /\ n <> 0).


(** [GET /strings/<v>] and [DELETE /strings/<v>] *)
Definition getStringRequest (v : jsstring) : Request :=
  {| method := GET;
     path := [js "strings"; v];
     query := ∅;
     body_value := ValueUndefined |}.

Definition deleteStringRequest (v : jsstring) : Request :=
  {| method := DELETE;
     path := [js "strings"; v];
     query := ∅;
     body_value := ValueUndefined |}.

(** The record [create] writes. *)
Definition newEntry (id : jsstring) (data : EntryData) (now : jsstring) : Entry.t :=
  {| Entry.id := id;
     Entry.value := data_value data;
     Entry.properties := data_properties data;
     Entry.created_at := now |}.

(** ** The ids the servers use *)

Definition isHexDigit (c : Z) : bool := isDigit c || inRange 97 102 c.  (* [0-9a-f] *)

(** What [digest('hex')] of SHA-256 returns: 64 digits among [0-9a-f].
    Such a text names no member of [Object.prototype] and is no array
    index, so for these ids [dataStore[id]] reads own properties only and
    [Object.values(dataStore)] follows the order of insertion. *)
Definition isDigest (id : jsstring) : bool :=
  (List.length id =? 64)%nat && forallb isHexDigit id.

(** The SHA-256 digest of "Madam", and a store that holds the record of
    "Madam" under it. *)
Definition madamSha256 : jsstring :=
  js "026486846129ede4c959b03b699cf53e1dc92ab0953f0d8b7d47ce90851f5ba0".

Definition madamRecord : Entry.t :=
  {| Entry.id := madamSha256;
     Entry.value := js "Madam";
     Entry.properties := Entry.properties madamEntry;
     Entry.created_at := js "2025-10-20T10:00:00.000Z" |}.

Definition digestStore : Store := [(madamSha256, madamRecord)].

(** The SHA-256 digest of "hello". *)
Definition helloSha256 : jsstring :=
  js "2cf24dba5fb0a30e26e83b2ac5b9e29e1b161e5c1fa7425e73043362938b9824".

(** The integers a JavaScript number holds exactly: up to 2^53. *)
Definition safeInteger (n : Z) : Prop := n < 2 ^ 53.

(** Queries on which a rule of the parser has more than one place to
    match, or is overruled by a later rule. *)
Definition shorterThanTwice : jsstring := js "shorter than 5 or shorter than 7".
Definition containsTwice : jsstring := js "contains a or contains b".
Definition firstVowelContains : jsstring := js "first vowel, contains z".

(** The answers of the natural-language handler. *)
Definition conflictResponse : Response :=
  sendError 422 "Query parsed but resulted in conflicting length filters".

Definition interpretedResponse (data : list Entry.t) (query : jsstring)
    (parsedFilters : Filters.t) : Response :=
  {| status := 200;
     body := InterpretedBody data (Z.of_nat (List.length data)) query parsedFilters |}.

(** * Properties of the analyzer *)

Lemma splitReverseJoin_rev (s : jsstring) : splitReverseJoin s = rev s.
Proof.
  unfold splitReverseJoin.
  induction s as [|c s IH]; [reflexivity|].
  rewrite fmap_cons. simpl rev.
  rewrite concat_app, IH. simpl. reflexivity.
Qed.

Lemma sumCounts_countChar (m : gmap (list Z) Z) (char : jsstring) :
  sumCounts (countChar m char) = sumCounts m + 1.
Proof.
  assert (Hcomm : forall (j1 j2 : list Z) (z1 z2 y : Z),
             z1 + (z2 + y) = z2 + (z1 + y)) by (intros; lia).
  unfold sumCounts, countChar.
  destruct (m !! char) as [n|] eqn:Hlook; simpl.
  - rewrite <- insert_delete_eq.
    rewrite map_fold_insert_L; [|intros; apply Hcomm; exact [] | apply lookup_delete_eq].
    rewrite (map_fold_delete_L _ _ char n m); [lia|intros; apply Hcomm; exact [] | exact Hlook].
  - rewrite map_fold_insert_L; [lia|intros; apply Hcomm; exact [] | exact Hlook].
Qed.

Lemma sumCounts_foldl (chars : list jsstring) (m : gmap (list Z) Z) :
  sumCounts (foldl countChar m chars) = sumCounts m + Z.of_nat (List.length chars).
Proof.
  revert m. induction chars as [|c chars IH]; intros m; simpl.
  - lia.
  - rewrite IH, sumCounts_countChar. lia.
Qed.

(** The iterator yields one element per code unit, except that a
    surrogate pair is one element. *)
Lemma codePoints_length (s : jsstring) :
  (List.length (codePoints s) + surrogatePairs s = List.length s)%nat.
Proof.
  enough (H : (List.length (codePoints s) + surrogatePairs s = List.length s)%nat
              /\ forall c, (List.length (codePoints (c :: s))
                            + surrogatePairs (c :: s) = S (List.length s))%nat)
    by apply H.
  induction s as [|d s [IH1 IH2]].
  - split; [reflexivity|intros c; reflexivity].
  - split; [apply IH2|].
    intros c. simpl codePoints. simpl surrogatePairs.
    destruct (isHighSurrogate c && isLowSurrogate d).
    + simpl. lia.
    + specialize (IH2 d). simpl in *. lia.
Qed.

Lemma sumCounts_frequencyMap (value : jsstring) :
  sumCounts (frequencyMap value) = Z.of_nat (List.length (codePoints value)).
Proof.
  unfold frequencyMap. rewrite sumCounts_foldl.
  unfold sumCounts. rewrite map_fold_empty. lia.
Qed.

Section AnalyzerProperties.

Variable toLowerCase : jsstring -> jsstring.
Variable sha256_hex : jsstring -> jsstring.

Hypothesis toLowerCase_ascii :
  forall s, forallb isAscii s = true -> toLowerCase s = asciiLower <$> s.

Local Abbreviation analyze := (analyzeString toLowerCase sha256_hex).

(** C4.  For every string, [is_palindrome] is true exactly when the
    normalization of the string (its lower-casing with every code unit
    outside [a-z0-9] removed) equals its own reverse; an empty
    normalization gives true, and so do the empty string, "Madam" and
    "A man, a plan, a canal: Panama", while "hello" gives false. *)
Theorem analyze_is_palindrome_iff :
  (forall s : jsstring,
      Properties.is_palindrome (analyze s) = true
      <-> filter (fun c => Is_true (isLowerAlnum c)) (toLowerCase s)
          = rev (filter (fun c => Is_true (isLowerAlnum c)) (toLowerCase s)))
  /\ (forall s : jsstring,
         normalizeForPalindrome toLowerCase s = [] ->
         Properties.is_palindrome (analyze s) = true)
  /\ Properties.is_palindrome (analyze []) = true
  /\ Properties.is_palindrome (analyze (js "Madam")) = true
  /\ Properties.is_palindrome (analyze (js "A man, a plan, a canal: Panama")) = true
  /\ Properties.is_palindrome (analyze (js "hello")) = false.
Proof.
  assert (Hiff : forall s : jsstring,
             Properties.is_palindrome (analyze s) = true
             <-> normalizeForPalindrome toLowerCase s
                 = rev (normalizeForPalindrome toLowerCase s)).
  { intros s. unfold analyzeString. simpl.
    rewrite bool_decide_eq_true, splitReverseJoin_rev. reflexivity. }
  assert (Hrun : forall (s : jsstring) (b : bool),
             forallb isAscii s = true ->
             bool_decide (filter (fun c => Is_true (isLowerAlnum c)) (asciiLower <$> s)
                          = rev (filter (fun c => Is_true (isLowerAlnum c))
                                   (asciiLower <$> s))) = b ->
             Properties.is_palindrome (analyze s) = b).
  { intros s b Hascii Hb. unfold analyzeString. simpl.
    rewrite splitReverseJoin_rev. unfold normalizeForPalindrome.
    rewrite (toLowerCase_ascii s Hascii). exact Hb. }
  split; [exact Hiff|].
  split.
  { intros s Hnil. apply Hiff. rewrite Hnil. reflexivity. }
  repeat split; apply Hrun; vm_compute; reflexivity.
Qed.

(** C5, as the code has it.  [length] counts UTF-16 code units and the
    frequency map counts the elements of the string iterator, so [length]
    is the sum of the occurrence counts plus the number of surrogate
    pairs; the two agree exactly on the strings without a surrogate
    pair. *)
Theorem analyze_length_counts_surrogate_pairs :
  forall s : jsstring,
    Properties.length (analyze s)
    = sumCounts (Properties.character_frequency_map (analyze s))
      + Z.of_nat (surrogatePairs s)
    /\ (Properties.length (analyze s)
        = sumCounts (Properties.character_frequency_map (analyze s))
        <-> surrogatePairs s = 0%nat).
Proof.
  intros s. unfold analyzeString. simpl.
  rewrite sumCounts_frequencyMap.
  pose proof (codePoints_length s) as Hlen.
  split; [lia|]. split; lia.
Qed.

End AnalyzerProperties.

(** C4 at the ASCII instance of [toLowerCase]. *)
Lemma analyze_is_palindrome_iff_witness :
  Properties.is_palindrome
    (analyzeString asciiToLowerCase plainDigest (js "Madam")) = true.
Proof.
  apply (analyze_is_palindrome_iff asciiToLowerCase plainDigest).
  intros s _. reflexivity.
Defined.

(** C5 as stated fails on a string with a character outside the Basic
    Multilingual Plane: U+1F600 has length 2 and is counted once. *)
Lemma analyze_length_counts_differ_outside_bmp :
  ~ (forall (toLowerCase sha256_hex : jsstring -> jsstring) (s : jsstring),
        Properties.length (analyzeString toLowerCase sha256_hex s)
        = sumCounts (Properties.character_frequency_map
                       (analyzeString toLowerCase sha256_hex s))).
Proof.
  intros H. specialize (H asciiToLowerCase plainDigest grinningFace).
  vm_compute in H. discriminate H.
Qed.

(** * Properties of the store *)

Lemma storeGet_storeSet (st : Store) (id : jsstring) (entry : Entry.t) :
  storeGet (storeSet st id entry) id = Some entry.
Proof.
  induction st as [|[k e] st IH]; simpl.
  - rewrite bool_decide_eq_true_2; reflexivity.
  - destruct (bool_decide (k = id)) eqn:Hk; simpl; rewrite Hk; [reflexivity|exact IH].
Qed.

Lemma storeGet_storeSet_other (st : Store) (id id' : jsstring) (entry : Entry.t) :
  id <> id' -> storeGet (storeSet st id entry) id' = storeGet st id'.
Proof.
  intros Hne. induction st as [|[k e] st IH]; simpl.
  - rewrite bool_decide_eq_false_2; [reflexivity|exact Hne].
  - destruct (bool_decide (k = id)) eqn:Hk; simpl.
    + apply bool_decide_eq_true in Hk. subst k.
      rewrite bool_decide_eq_false_2; [reflexivity|exact Hne].
    + destruct (bool_decide (k = id')); [reflexivity|exact IH].
Qed.

Lemma readOnly_ret {A} (a : A) : readOnly (ret a).
Proof. intros st. reflexivity. Qed.

Lemma readOnly_readStore : readOnly readStore.
Proof. intros st. reflexivity. Qed.

Lemma readOnly_bind {A B} (m : M A) (k : A -> M B) :
  readOnly m -> (forall a, readOnly (k a)) -> readOnly (bind m k).
Proof.
  intros Hm Hk st. unfold bind.
  specialize (Hm st). destruct (m st) as [a st'] eqn:Hrun. simpl in Hm. subst st'.
  apply Hk.
Qed.

Create HintDb readonly.

#[local] Hint Resolve readOnly_ret readOnly_readStore : readonly.

Lemma StorageJs_getById_readOnly (id : jsstring) : readOnly (StorageJs.getById id).
Proof. apply readOnly_bind; auto with readonly. Qed.

Lemma StorageJs_getAll_readOnly : readOnly StorageJs.getAll.
Proof. apply readOnly_bind; auto with readonly. Qed.

Lemma Part001_getById_readOnly (id : jsstring) : readOnly (Part001.getById id).
Proof. apply readOnly_bind; auto with readonly. Qed.

Lemma Part001_getAll_readOnly : readOnly Part001.getAll.
Proof. apply readOnly_bind; auto with readonly. Qed.

(** [create] on a key that is held, in either revision. *)
Lemma StorageJs_create_present (st : Store) (id : jsstring) (e : Entry.t)
    (data : option EntryData) (now : jsstring) :
  storeGet st id = Some e -> StorageJs.create id data now st = (None, st).
Proof.
  intros Hheld. unfold StorageJs.create.
  destruct id as [|c id]; [reflexivity|].
  destruct data as [data|]; [|reflexivity].
  unfold bind, readStore. rewrite Hheld. reflexivity.
Qed.

Lemma Part001_create_present (st : Store) (id : jsstring) (e : Entry.t)
    (data : EntryData) (now : jsstring) :
  storeGet st id = Some e -> Part001.create id data now st = (None, st).
Proof.
  intros Hheld. unfold Part001.create, bind, readStore.
  rewrite Hheld. reflexivity.
Qed.

(** After [create], whatever it answered, the key is held (unless it is
    the empty string, which [src/storage.js] refuses). *)
Lemma StorageJs_create_held (st : Store) (id : jsstring)
    (data : EntryData) (now : jsstring) :
  id <> [] ->
  is_Some (storeGet (snd (StorageJs.create id (Some data) now st)) id).
Proof.
  intros Hid. unfold StorageJs.create.
  destruct id as [|c id]; [congruence|].
  unfold bind, readStore, writeStore, ret.
  destruct (storeGet st (c :: id)) as [e|] eqn:Hheld; simpl.
  - rewrite Hheld. eauto.
  - rewrite storeGet_storeSet. eauto.
Qed.

Lemma Part001_create_held (st : Store) (id : jsstring)
    (data : EntryData) (now : jsstring) :
  is_Some (storeGet (snd (Part001.create id data now st)) id).
Proof.
  unfold Part001.create, bind, readStore, writeStore, ret.
  destruct (storeGet st id) as [e|] eqn:Hheld; simpl.
  - rewrite Hheld. eauto.
  - rewrite storeGet_storeSet. eauto.
Qed.

(** So a second [create] of the same key is refused and changes nothing. *)
Lemma StorageJs_create_twice (st : Store) (id : jsstring)
    (data data' : EntryData) (now now' : jsstring) :
  let st1 := snd (Storage.create StorageJs.storage id data now st) in
  Storage.create StorageJs.storage id data' now' st1 = (None, st1).
Proof.
  simpl. destruct id as [|c id]; [reflexivity|].
  destruct (StorageJs_create_held st (c :: id) data now) as [e He]; [congruence|].
  eapply StorageJs_create_present. exact He.
Qed.

Lemma Part001_create_twice (st : Store) (id : jsstring)
    (data data' : EntryData) (now now' : jsstring) :
  let st1 := snd (Storage.create Part001.storage id data now st) in
  Storage.create Part001.storage id data' now' st1 = (None, st1).
Proof.
  simpl. destruct (Part001_create_held st id data now) as [e He].
  eapply Part001_create_present. exact He.
Qed.

(** * Properties of the handlers *)

(** The store modules the application may be linked with. *)
Lemma storage_getAll_readOnly (storage : Storage.api) :
  storage = StorageJs.storage \/ storage = Part001.storage ->
  readOnly (Storage.getAll storage).
Proof.
  intros [-> | ->]; simpl;
    [apply StorageJs_getAll_readOnly | apply Part001_getAll_readOnly].
Qed.

Lemma storage_getById_readOnly (storage : Storage.api) (id : jsstring) :
  storage = StorageJs.storage \/ storage = Part001.storage ->
  readOnly (Storage.getById storage id).
Proof.
  intros [-> | ->]; simpl;
    [apply StorageJs_getById_readOnly | apply Part001_getById_readOnly].
Qed.

Lemma storage_create_twice (storage : Storage.api) (st : Store) (id : jsstring)
    (data data' : EntryData) (now now' : jsstring) :
  storage = StorageJs.storage \/ storage = Part001.storage ->
  let st1 := snd (Storage.create storage id data now st) in
  Storage.create storage id data' now' st1 = (None, st1).
Proof.
  intros [-> | ->]; [apply StorageJs_create_twice | apply Part001_create_twice].
Qed.

Section HandlerProperties.

Variable toLowerCase : jsstring -> jsstring.
Variable sha256_hex : jsstring -> jsstring.
Variable storage : Storage.api.
Hypothesis storage_linked :
  storage = StorageJs.storage \/ storage = Part001.storage.

Lemma getString_readOnly (stringValue : jsstring) :
  readOnly (getString toLowerCase sha256_hex storage stringValue).
Proof.
  unfold getString. apply readOnly_bind.
  - apply storage_getById_readOnly, storage_linked.
  - intros [entry|]; apply readOnly_ret.
Qed.

Lemma getStrings_readOnly (radix : option Z) (req : Request) :
  readOnly (getStrings storage radix req).
Proof.
  unfold getStrings. apply readOnly_bind.
  - apply storage_getAll_readOnly, storage_linked.
  - intros allStrings. destruct (validateQuery radix (query req)); apply readOnly_ret.
Qed.

Lemma respondInterpreted_readOnly (query : jsstring) (parsedFilters : Filters.t) :
  readOnly (respondInterpreted storage query parsedFilters).
Proof.
  unfold respondInterpreted. apply readOnly_bind.
  - apply storage_getAll_readOnly, storage_linked.
  - intros allStrings. apply readOnly_ret.
Qed.

Lemma ServerJs_filterByNaturalLanguage_readOnly (req : Request) :
  readOnly (ServerJs.filterByNaturalLanguage toLowerCase storage req).
Proof.
  unfold ServerJs.filterByNaturalLanguage.
  destruct (query req !! "query"%string) as [[|c q]|]; try apply readOnly_ret.
  destruct (ServerJs.conflicting _);
    [apply readOnly_ret | apply respondInterpreted_readOnly].
Qed.

Lemma Part002_filterByNaturalLanguage_readOnly (req : Request) :
  readOnly (Part002.filterByNaturalLanguage toLowerCase storage req).
Proof.
  unfold Part002.filterByNaturalLanguage.
  destruct (query req !! "query"%string) as [[|c q]|]; try apply readOnly_ret.
  destruct (Part002.conflicting _);
    [apply readOnly_ret | apply respondInterpreted_readOnly].
Qed.

(** A second [POST /strings] of a value is answered 409 and leaves the
    store as the first one left it. *)
Lemma postStrings_twice (value now1 now2 : jsstring) (st0 : Store) :
  let post := postStrings toLowerCase sha256_hex storage (postRequest value) in
  let st1 := snd (post now1 st0) in
  post now2 st1 = (sendError 409 "String already exists in the system", st1).
Proof.
  intros post st1. subst post st1.
  unfold postStrings.
  change (body_value (postRequest value)) with (ValueString value).
  unfold bind. cbv beta iota zeta.
  pose proof (storage_create_twice storage st0
                (Properties.sha256_hash (analyzeString toLowerCase sha256_hex value))
                {| data_value := value;
                   data_properties := analyzeString toLowerCase sha256_hex value |}
                {| data_value := value;
                   data_properties := analyzeString toLowerCase sha256_hex value |}
                now1 now2 storage_linked) as Htwice.
  cbv zeta in Htwice.
  destruct (Storage.create storage _ _ now1 st0) as [[entry|] st1];
    cbn [snd ret] in *; rewrite Htwice; reflexivity.
Qed.

End HandlerProperties.

(** X27.  Every [GET] request is served without a change of the store,
    by either revision of the application, whatever its path and
    parameters. *)
Lemma get_requests_readOnly (toLowerCase sha256_hex : jsstring -> jsstring)
    (app : Request -> jsstring -> M Response) (req : Request) (now : jsstring) :
  In app (applications toLowerCase sha256_hex) ->
  method req = GET ->
  readOnly (app req now).
Proof.
  intros Happ Hget. destruct req as [m p q b]. simpl in Hget. subst m.
  unfold applications in Happ. simpl in Happ.
  destruct Happ as [<- | [<- | [<- | [<- | []]]]];
    unfold ServerJs.app, Part002.app, serve, ServerJs.routes, Part002.routes, dispatch;
    simpl methodEq; cbv iota; simpl path;
    repeat match goal with
      | |- context [matchSegments ?pat p] => destruct (matchSegments pat p)
      end;
    first [ apply getString_readOnly
          | apply getStrings_readOnly
          | apply ServerJs_filterByNaturalLanguage_readOnly
          | apply Part002_filterByNaturalLanguage_readOnly
          | apply readOnly_ret ]; auto.
Qed.

Lemma In_storages (storage : Storage.api) :
  In storage storages ->
  storage = StorageJs.storage \/ storage = Part001.storage.
Proof. intros [<- | [<- | []]]; auto. Qed.

(** A record that [create] returns is the one held under its id. *)
Lemma storage_create_Some (storage : Storage.api) (st : Store) (id : jsstring)
    (data : EntryData) (now : jsstring) (entry : Entry.t) :
  storage = StorageJs.storage \/ storage = Part001.storage ->
  fst (Storage.create storage id data now st) = Some entry ->
  Entry.id entry = id
  /\ storeGet (snd (Storage.create storage id data now st)) id = Some entry.
Proof.
  intros [-> | ->]; simpl.
  - unfold StorageJs.create. destruct id as [|c id]; [discriminate|].
    unfold bind, readStore, writeStore, ret.
    destruct (storeGet st (c :: id)); simpl; [discriminate|].
    intros [= <-]. split; [reflexivity|apply storeGet_storeSet].
  - unfold Part001.create, bind, readStore, writeStore, ret.
    destruct (storeGet st id); simpl; [discriminate|].
    intros [= <-]. split; [reflexivity|apply storeGet_storeSet].
Qed.

Lemma applications_post (toLowerCase sha256_hex : jsstring -> jsstring)
    (app : Request -> jsstring -> M Response) (value : jsstring) :
  In app (applications toLowerCase sha256_hex) ->
  exists storage,
    In storage storages
    /\ app (postRequest value)
       = postStrings toLowerCase sha256_hex storage (postRequest value).
Proof.
  intros [<- | [<- | [<- | [<- | []]]]];
    [exists StorageJs.storage | exists Part001.storage
    | exists StorageJs.storage | exists Part001.storage];
    (split; [unfold storages; simpl; auto | reflexivity]).
Qed.

(** C6.  When the id is already held, [create] of either revision of the
    store answers null and leaves the store as it was, so the held record
    keeps its value, properties and created_at.  Over HTTP, after one
    [POST /strings] of a value a second one is answered 409, leaves the
    store as the first left it, and a record created by the first is
    still the one held. *)
Theorem create_on_held_id_conflicts :
  forall (st : Store) (id : jsstring) (held : Entry.t),
    storeGet st id = Some held ->
    (forall data now, StorageJs.create id data now st = (None, st))
    /\ (forall data now, Part001.create id data now st = (None, st))
    /\ (forall toLowerCase sha256_hex app value now1 now2 st0,
           In app (applications toLowerCase sha256_hex) ->
           let '(r1, st1) := app (postRequest value) now1 st0 in
           let '(r2, st2) := app (postRequest value) now2 st1 in
           r2 = sendError 409 "String already exists in the system"
           /\ st2 = st1
           /\ forall created,
               r1 = {| status := 201; body := EntryBody created |} ->
               storeGet st2 (Entry.id created) = Some created).
Proof.
  intros st id held Hheld.
  split; [intros; eapply StorageJs_create_present; exact Hheld|].
  split; [intros; eapply Part001_create_present; exact Hheld|].
  intros toLowerCase sha256_hex app value now1 now2 st0 Happ.
  destruct (applications_post toLowerCase sha256_hex app value Happ)
    as (storage & Hin%In_storages & ->).
  pose proof (postStrings_twice toLowerCase sha256_hex storage Hin value now1 now2 st0)
    as Htwice.
  cbv zeta in Htwice.
  destruct (postStrings toLowerCase sha256_hex storage (postRequest value) now1 st0)
    as [r1 st1] eqn:Hfirst.
  simpl snd in Htwice. rewrite Htwice.
  split; [reflexivity|]. split; [reflexivity|].
  intros created ->.
  unfold postStrings in Hfirst.
  change (body_value (postRequest value)) with (ValueString value) in Hfirst.
  unfold bind in Hfirst. cbv beta iota zeta in Hfirst.
  pose proof (storage_create_Some storage st0
                (Properties.sha256_hash (analyzeString toLowerCase sha256_hex value))
                {| data_value := value;
                   data_properties := analyzeString toLowerCase sha256_hex value |}
                now1) as Hsome.
  destruct (Storage.create storage _ _ now1 st0) as [[entry|] st'];
    cbn [fst snd ret] in *; [|discriminate].
  injection Hfirst as -> ->.
  destruct (Hsome created Hin eq_refl) as [-> Hget]. exact Hget.
Qed.

(** C6 on the store that holds "Madam". *)
Lemma create_on_held_id_conflicts_witness :
  Part001.create (Entry.id madamEntry)
    {| data_value := js "Madam"; data_properties := Entry.properties madamEntry |}
    (js "2025-10-20T10:05:00.000Z") madamStore
  = (None, madamStore).
Proof.
  apply (create_on_held_id_conflicts madamStore (Entry.id madamEntry) madamEntry).
  reflexivity.
Defined.

(** C10.  The read operations of the store modules, the handler of
    [GET /strings] and the natural-language handlers of both revisions
    return the store they were given. *)
Theorem read_operations_leave_store :
  forall (toLowerCase : jsstring -> jsstring) (st : Store),
    (forall id, snd (StorageJs.getById id st) = st)
    /\ snd (StorageJs.getAll st) = st
    /\ (forall id, snd (Part001.getById id st) = st)
    /\ snd (Part001.getAll st) = st
    /\ Forall (fun storage =>
                 forall radix req,
                   snd (getStrings storage radix req st) = st) storages
    /\ Forall (fun storage =>
                 forall req,
                   snd (ServerJs.filterByNaturalLanguage toLowerCase storage req st) = st
                   /\ snd (Part002.filterByNaturalLanguage toLowerCase storage req st) = st)
         storages.
Proof.
  intros toLowerCase st.
  split; [intros id; apply StorageJs_getById_readOnly|].
  split; [apply StorageJs_getAll_readOnly|].
  split; [intros id; apply Part001_getById_readOnly|].
  split; [apply Part001_getAll_readOnly|].
  split; apply List.Forall_forall; intros storage Hin%In_storages.
  - intros radix req. apply getStrings_readOnly. exact Hin.
  - intros req. split.
    + apply ServerJs_filterByNaturalLanguage_readOnly. exact Hin.
    + apply Part002_filterByNaturalLanguage_readOnly. exact Hin.
Qed.

(** * Routing *)

(** In [src/unnamed/part_002] the natural-language route is registered
    before [/strings/:stringValue] and takes the request. *)
Lemma Part002_natural_language_dispatch (others : gmap string (list Z)) (q : jsstring) :
  dispatch Part002.routes (naturalLanguageRequest others q)
  = Some (FilterByNaturalLanguage, []).
Proof. reflexivity. Qed.

(** X30.  In [part_002], [GET /strings/filter-by-natural-language] with
    a non-empty query is answered by the natural-language handler: 422, or
    200 with the object [{ data, count, interpreted_query }] whose
    [original] is the query as sent. *)
Lemma Part002_natural_language_served
    (toLowerCase sha256_hex : jsstring -> jsstring) (storage : Storage.api)
    (others : gmap string (list Z)) (q now : jsstring) (st : Store) :
  q <> [] ->
  let r := fst (Part002.app toLowerCase sha256_hex storage
                  (naturalLanguageRequest others q) now st) in
  r = sendError 422 "Query parsed but resulted in conflicting length filters"
  \/ exists data count parsed,
       r = {| status := 200; body := InterpretedBody data count q parsed |}.
Proof.
  intros Hq. unfold Part002.app, serve.
  rewrite Part002_natural_language_dispatch.
  unfold Part002.filterByNaturalLanguage.
  change (query (naturalLanguageRequest others q))
    with (<["query"%string := q]> others).
  rewrite lookup_insert_eq.
  destruct q as [|c q]; [congruence|].
  destruct (Part002.conflicting _); simpl; [left; reflexivity|].
  right. unfold respondInterpreted, bind.
  destruct (Storage.getAll storage st) as [allStrings st']. simpl. eauto.
Qed.

(** C1, at [src/server.js].  There [/strings/:stringValue] is registered
    before the natural-language route: the request
    [GET /strings/filter-by-natural-language?query=q] is given to the
    handler of a single string with the parameter
    "filter-by-natural-language", which on an empty store answers 404; the
    natural-language handler is never reached. *)
Theorem ServerJs_natural_language_path_taken_by_getString :
  forall (others : gmap string (list Z)) (q : jsstring),
    dispatch ServerJs.routes (naturalLanguageRequest others q)
    = Some (GetString, [("stringValue"%string, js "filter-by-natural-language")])
    /\ forall (toLowerCase sha256_hex : jsstring -> jsstring) (now : jsstring),
         Forall (fun storage =>
                   ServerJs.app toLowerCase sha256_hex storage
                     (naturalLanguageRequest others q) now []
                   = (sendError 404 "String does not exist in the system", []))
           storages.
Proof.
  intros others q. split; [reflexivity|].
  intros toLowerCase sha256_hex now.
  unfold storages. repeat constructor.
Qed.

(** * Strings, [parseInt] and the searches of the parser *)

Lemma stripPrefix_app (p r : jsstring) : stripPrefix p (p ++ r) = Some r.
Proof.
  induction p as [|a p IH]; simpl; [reflexivity|].
  rewrite Z.eqb_refl. exact IH.
Qed.

Lemma stripPrefix_Some (p s r : jsstring) :
  stripPrefix p s = Some r -> s = p ++ r.
Proof.
  revert s. induction p as [|a p IH]; intros s; simpl.
  - intros [= ->]. reflexivity.
  - destruct s as [|b s]; [discriminate|].
    destruct (a =? b) eqn:Hab; [|discriminate].
    apply Z.eqb_eq in Hab. subst b.
    intros H. rewrite (IH s H). reflexivity.
Qed.

Lemma includes_unfold (s p : jsstring) :
  includes s p
  = match stripPrefix p s with
    | Some _ => true
    | None => match s with
              | [] => false
              | _ :: s' => includes s' p
              end
    end.
Proof. destruct s; reflexivity. Qed.

(** [includes] is the substring test. *)
Lemma includes_true_iff (s p : jsstring) :
  includes s p = true <-> exists pre post, s = pre ++ p ++ post.
Proof.
  split.
  - induction s as [|a s IH]; rewrite includes_unfold.
    + destruct (stripPrefix p []) as [r|] eqn:Hp; [|discriminate].
      intros _. exists [], r. apply stripPrefix_Some in Hp. exact Hp.
    + destruct (stripPrefix p (a :: s)) as [r|] eqn:Hp.
      * intros _. exists [], r. apply stripPrefix_Some in Hp. exact Hp.
      * intros H. destruct (IH H) as (pre & post & ->).
        exists (a :: pre), post. reflexivity.
  - intros (pre & post & ->).
    induction pre as [|a pre IH]; rewrite includes_unfold.
    + simpl. rewrite stripPrefix_app. reflexivity.
    + destruct (stripPrefix p ((a :: pre) ++ p ++ post)); [reflexivity|exact IH].
Qed.

Lemma regexSearch_unfold {A} (here : jsstring -> option A) (s : jsstring) :
  regexSearch here s
  = match here s with
    | Some r => Some r
    | None => match s with
              | [] => None
              | _ :: s' => regexSearch here s'
              end
    end.
Proof. destruct s; reflexivity. Qed.

(** The search answers with the attempt at the leftmost position where
    one succeeds. *)
Lemma regexSearch_leftmost {A} (here : jsstring -> option A)
    (pre rest : jsstring) (r : A) :
  (forall i, (i < List.length pre)%nat -> here (drop i (pre ++ rest)) = None) ->
  here rest = Some r ->
  regexSearch here (pre ++ rest) = Some r.
Proof.
  intros Hearlier Hhere.
  induction pre as [|a pre IH]; rewrite regexSearch_unfold.
  - simpl. rewrite Hhere. reflexivity.
  - pose proof (Hearlier 0%nat ltac:(simpl; lia)) as Hfirst.
    simpl in Hfirst. simpl app. rewrite Hfirst.
    apply IH. intros i Hi. apply (Hearlier (S i)). simpl. lia.
Qed.

(** A search that succeeds found its result at some position. *)
Lemma regexSearch_Some {A} (here : jsstring -> option A) (s : jsstring) (r : A) :
  regexSearch here s = Some r ->
  exists pre rest, s = pre ++ rest /\ here rest = Some r.
Proof.
  induction s as [|a s IH]; rewrite regexSearch_unfold.
  - destruct (here []) eqn:Hh; [|discriminate].
    intros [= ->]. exists [], []. auto.
  - destruct (here (a :: s)) eqn:Hh.
    + intros [= ->]. exists [], (a :: s). auto.
    + intros H. destruct (IH H) as (pre & rest & -> & Hr).
      exists (a :: pre), rest. auto.
Qed.

Lemma regexSearch_None {A} (here : jsstring -> option A) (s : jsstring) :
  (forall pre rest, s = pre ++ rest -> here rest = None) ->
  regexSearch here s = None.
Proof.
  induction s as [|a s IH]; intros Hnone; rewrite regexSearch_unfold.
  - rewrite (Hnone [] []); reflexivity.
  - rewrite (Hnone [] (a :: s)) by reflexivity.
    apply IH. intros pre rest ->. apply (Hnone (a :: pre) rest). reflexivity.
Qed.

Lemma takeWhile_dropWhile_app {A} (p : A -> bool) (run rest : list A) :
  forallb p run = true ->
  (forall c, head rest = Some c -> p c = false) ->
  takeWhile p (run ++ rest) = run /\ dropWhile p (run ++ rest) = rest.
Proof.
  intros Hrun Hstop. induction run as [|a run IH]; simpl in *.
  - destruct rest as [|c rest]; [auto|].
    simpl. rewrite (Hstop c eq_refl). auto.
  - apply andb_prop in Hrun as [Ha Hrun]. rewrite Ha.
    destruct (IH Hrun) as [-> ->]. auto.
Qed.

Lemma isDigit_not_whiteSpace (c : Z) : isDigit c = true -> isWhiteSpace c = false.
Proof. unfold isDigit, isWhiteSpace, inRange. lia. Qed.

Lemma isLowerAlnum_not_whiteSpace (c : Z) :
  isLowerAlnum c = true -> isWhiteSpace c = false.
Proof. unfold isLowerAlnum, isLowerAZ, isDigit, isWhiteSpace, inRange. lia. Qed.

(** One attempt of a length rule where the text reads
    [<word> <white space> <digits>]. *)
Lemma wordThenNumber_here (word ws ds rest : jsstring) :
  ws <> [] -> forallb isWhiteSpace ws = true ->
  ds <> [] -> forallb isDigit ds = true ->
  (forall c, head rest = Some c -> isDigit c = false) ->
  wordThenNumber word (word ++ ws ++ ds ++ rest) = Some ds.
Proof.
  intros Hws Hspace Hds Hdigits Hstop. unfold wordThenNumber.
  rewrite stripPrefix_app.
  destruct (takeWhile_dropWhile_app isWhiteSpace ws (ds ++ rest) Hspace) as [-> ->].
  { destruct ds as [|d ds]; [congruence|]. simpl. intros c [= <-].
    simpl in Hdigits. apply andb_prop in Hdigits as [Hd _].
    apply isDigit_not_whiteSpace, Hd. }
  destruct ws as [|w ws]; [congruence|].
  destruct (takeWhile_dropWhile_app isDigit ds rest Hdigits Hstop) as [-> _].
  destruct ds; [congruence|reflexivity].
Qed.

(** What a length rule captures is a non-empty run of digits. *)
Lemma wordThenNumber_digits (word s ds : jsstring) :
  wordThenNumber word s = Some ds -> ds <> [] /\ forallb isDigit ds = true.
Proof.
  unfold wordThenNumber.
  destruct (stripPrefix word s) as [rest|]; [|discriminate].
  destruct (takeWhile isWhiteSpace rest); [discriminate|].
  generalize (dropWhile isWhiteSpace rest) as t. intros t.
  destruct (takeWhile isDigit t) as [|d ds'] eqn:Htake; [discriminate|].
  intros [= <-]. split; [discriminate|].
  rewrite <- Htake. clear. induction t as [|c t IH]; simpl; [reflexivity|].
  destruct (isDigit c) eqn:Hc; simpl; [rewrite Hc; exact IH|reflexivity].
Qed.

Lemma radixValue_digits (ds : jsstring) (acc : Z) :
  forallb isDigit ds = true ->
  fold_left (fun acc c => 10 * acc + default 0 (digitOf c)) ds acc
  = fold_left (fun acc d => 10 * acc + (d - 48)) ds acc.
Proof.
  revert acc. induction ds as [|d ds IH]; intros acc Hds; simpl; [reflexivity|].
  simpl in Hds. apply andb_prop in Hds as [Hd Hds].
  unfold digitOf at 2. rewrite Hd. simpl. apply IH, Hds.
Qed.

Lemma takeWhile_all {A} (p : A -> bool) (l : list A) :
  forallb p l = true -> takeWhile p l = l.
Proof.
  induction l as [|a l IH]; simpl; [reflexivity|].
  intros [Ha Hl]%andb_prop. rewrite Ha, (IH Hl). reflexivity.
Qed.

(** On a non-empty run of digits [parseInt] is never NaN, with the radix
    10 or without a radix: it is the decimal value of the run. *)
Lemma parseInt_digits (ds : jsstring) (radix : option Z) :
  radix = None \/ radix = Some 10 ->
  ds <> [] -> forallb isDigit ds = true ->
  parseInt ds radix = Some (digitsValue ds).
Proof.
  intros Hradix Hne Hds.
  assert (Hall : forallb (isRadixDigit 10) ds = true).
  { clear Hne. induction ds as [|d ds IH]; simpl in *; [reflexivity|].
    apply andb_prop in Hds as [Hd Hds]. rewrite (IH Hds), andb_true_r.
    unfold isRadixDigit, digitOf. rewrite Hd.
    unfold isDigit, inRange in Hd. lia. }
  destruct ds as [|d ds]; [congruence|]. clear Hne.
  assert (Hd : isDigit d = true) by (simpl in Hds; apply andb_prop in Hds; tauto).
  unfold parseInt.
  simpl dropWhile. rewrite (isDigit_not_whiteSpace d Hd).
  assert (H45 : (d =? 45) = false) by (unfold isDigit, inRange in Hd; lia).
  assert (H43 : (d =? 43) = false) by (unfold isDigit, inRange in Hd; lia).
  rewrite H45, H43.
  assert (Hx : match ds with
               | x :: _ => (x =? 120) || (x =? 88) = false
               | [] => True
               end).
  { destruct ds as [|x ds]; [exact I|].
    simpl in Hds. apply andb_prop in Hds as [_ Hds].
    apply andb_prop in Hds as [Hxd _]. unfold isDigit, inRange in Hxd. lia. }
  assert (Hval : radixValue 10 (d :: ds) = digitsValue (d :: ds)).
  { unfold radixValue, digitsValue. apply radixValue_digits, Hds. }
  destruct Hradix as [-> | ->]; simpl default; cbv beta zeta.
  - change (0 =? 0) with true. change (0 =? 16) with false.
    simpl negb. simpl andb. simpl orb. cbv iota.
    destruct ds as [|x ds].
    + rewrite (takeWhile_all _ _ Hall), Hval. f_equal. lia.
    + rewrite Hx, andb_false_r.
      rewrite (takeWhile_all _ _ Hall), Hval. f_equal. lia.
  - change (10 =? 0) with false. change (10 =? 16) with false.
    change (10 <? 2) with false. change (36 <? 10) with false.
    simpl negb. simpl andb. simpl orb. cbv iota.
    destruct ds as [|x ds].
    + rewrite (takeWhile_all _ _ Hall), Hval. f_equal. lia.
    + rewrite (takeWhile_all _ _ Hall), Hval. f_equal. lia.
Qed.

(** * The natural-language parser: what each rule leaves in a field *)

Ltac split_rules :=
  repeat match goal with
    | |- context [if ?b then _ else _] => destruct b
    | |- context [match ?o with Some _ => _ | None => _ end] => destruct o
    end;
  try reflexivity.

Lemma regexSearch_number (word lq : jsstring) (radix : option Z) :
  radix = None \/ radix = Some 10 ->
  match regexSearch (wordThenNumber word) lq with
  | Some digits => parseInt digits radix = Some (digitsValue digits)
  | None => True
  end.
Proof.
  intros Hradix.
  destruct (regexSearch (wordThenNumber word) lq) as [digits|] eqn:Hsearch; [|exact I].
  apply regexSearch_Some in Hsearch as (pre & rest & _ & Hhere).
  apply wordThenNumber_digits in Hhere as [Hne Hds].
  apply parseInt_digits; assumption.
Qed.

Lemma ServerJs_parseFilters_word_count (lq : jsstring) :
  Filters.word_count (ServerJs.parseFilters lq)
  = if includes lq (js "single word") then Some 1 else None.
Proof. unfold ServerJs.parseFilters. cbv zeta. split_rules. Qed.

Lemma ServerJs_parseFilters_max_length (lq : jsstring) :
  Filters.max_length (ServerJs.parseFilters lq) = None.
Proof. unfold ServerJs.parseFilters. cbv zeta. split_rules. Qed.

Lemma ServerJs_parseFilters_min_length (lq : jsstring) :
  Filters.min_length (ServerJs.parseFilters lq)
  = match regexSearch (wordThenNumber (js "longer than")) lq with
    | Some digits => Some (digitsValue digits + 1)
    | None => None
    end.
Proof.
  pose proof (regexSearch_number (js "longer than") lq None (or_introl eq_refl)) as Hn.
  unfold ServerJs.parseFilters. cbv zeta.
  destruct (regexSearch (wordThenNumber (js "longer than")) lq) as [digits|];
    [rewrite Hn|]; split_rules.
Qed.

Lemma ServerJs_parseFilters_contains_character (lq : jsstring) :
  Filters.contains_character (ServerJs.parseFilters lq)
  = if includes lq (js "first vowel") then Some (js "a")
    else regexSearch (containsOrLetter isLowerAZ) lq.
Proof. unfold ServerJs.parseFilters. cbv zeta. split_rules. Qed.

Lemma Part002_parseFilters_is_palindrome (lq : jsstring) :
  Filters.is_palindrome (Part002.parseFilters lq)
  = if includes lq (js "palindrome") || includes lq (js "palindromic")
    then Some true else None.
Proof. unfold Part002.parseFilters. cbv zeta. split_rules. Qed.

Lemma Part002_parseFilters_word_count (lq : jsstring) :
  Filters.word_count (Part002.parseFilters lq)
  = if includes lq (js "single word") || includes lq (js "one word")
    then Some 1 else None.
Proof. unfold Part002.parseFilters. cbv zeta. split_rules. Qed.

Lemma Part002_parseFilters_min_length (lq : jsstring) :
  Filters.min_length (Part002.parseFilters lq)
  = match regexSearch (wordThenNumber (js "longer than")) lq with
    | Some digits => Some (digitsValue digits + 1)
    | None => None
    end.
Proof.
  pose proof (regexSearch_number (js "longer than") lq (Some 10) (or_intror eq_refl))
    as Hn.
  unfold Part002.parseFilters. cbv zeta.
  destruct (regexSearch (wordThenNumber (js "longer than")) lq) as [digits|];
    [rewrite Hn|]; split_rules.
Qed.

Lemma Part002_parseFilters_max_length (lq : jsstring) :
  Filters.max_length (Part002.parseFilters lq)
  = match regexSearch (wordThenNumber (js "shorter than")) lq with
    | Some digits => Some (digitsValue digits - 1)
    | None => None
    end.
Proof.
  pose proof (regexSearch_number (js "shorter than") lq (Some 10) (or_intror eq_refl))
    as Hn.
  unfold Part002.parseFilters. cbv zeta.
  destruct (regexSearch (wordThenNumber (js "shorter than")) lq) as [digits|];
    [rewrite Hn|]; split_rules.
Qed.

Lemma Part002_parseFilters_contains_character (lq : jsstring) :
  Filters.contains_character (Part002.parseFilters lq)
  = if includes lq (js "first vowel") then Some (js "a")
    else regexSearch (containsOrLetter isLowerAlnum) lq.
Proof. unfold Part002.parseFilters. cbv zeta. split_rules. Qed.

(** Rule 2 in [src/unnamed/part_002]: a lower-cased query that contains
    "single word" or "one word" gets [word_count = 1]. *)
Lemma Part002_single_or_one_word (pre post : jsstring) :
  Filters.word_count (Part002.parseFilters (pre ++ js "single word" ++ post)) = Some 1
  /\ Filters.word_count (Part002.parseFilters (pre ++ js "one word" ++ post)) = Some 1.
Proof.
  rewrite !Part002_parseFilters_word_count.
  assert (H1 : includes (pre ++ js "single word" ++ post) (js "single word") = true)
    by (apply includes_true_iff; eauto).
  assert (H2 : includes (pre ++ js "one word" ++ post) (js "one word") = true)
    by (apply includes_true_iff; eauto).
  rewrite H1, H2, orb_true_r. auto.
Qed.

(** Rules 3 and 4 in [src/unnamed/part_002]: where the text reads
    [longer than <N>] (or [shorter than <N>]) and no earlier position
    matches the rule, [min_length] is [N + 1] (or [max_length] is
    [N - 1]).  Numbers are integers here: this is what JavaScript
    computes for [N] below 2^53. *)
Lemma regexSearch_wordThenNumber (word pre ws ds rest : jsstring) :
  ws <> [] -> forallb isWhiteSpace ws = true ->
  ds <> [] -> forallb isDigit ds = true ->
  (forall c, head rest = Some c -> isDigit c = false) ->
  (forall i, (i < List.length pre)%nat ->
             wordThenNumber word (drop i (pre ++ word ++ ws ++ ds ++ rest)) = None) ->
  regexSearch (wordThenNumber word) (pre ++ word ++ ws ++ ds ++ rest) = Some ds.
Proof.
  intros Hws Hspace Hds Hdigits Hstop Hleft.
  apply regexSearch_leftmost; [exact Hleft|].
  apply wordThenNumber_here; assumption.
Qed.

(** X18.  Rule 4 of [part_002]: where the lower-cased query reads
    "shorter than", white space, the digits of a number N below 2^53, and
    no earlier position matches the rule, [max_length] is N - 1. *)
Lemma Part002_shorter_than (pre ws ds rest : jsstring) :
  let lq := pre ++ js "shorter than" ++ ws ++ ds ++ rest in
  ws <> [] -> forallb isWhiteSpace ws = true ->
  ds <> [] -> forallb isDigit ds = true ->
  safeInteger (digitsValue ds) ->
  (forall c, head rest = Some c -> isDigit c = false) ->
  (forall i, (i < List.length pre)%nat ->
             wordThenNumber (js "shorter than") (drop i lq) = None) ->
  Filters.max_length (Part002.parseFilters lq) = Some (digitsValue ds - 1).
Proof.
  intros lq Hws Hspace Hds Hdigits _ Hstop Hleft. subst lq.
  rewrite Part002_parseFilters_max_length.
  rewrite regexSearch_wordThenNumber by assumption. reflexivity.
Qed.

Lemma Part002_longer_than (pre ws ds rest : jsstring) :
  let lq := pre ++ js "longer than" ++ ws ++ ds ++ rest in
  ws <> [] -> forallb isWhiteSpace ws = true ->
  ds <> [] -> forallb isDigit ds = true ->
  (forall c, head rest = Some c -> isDigit c = false) ->
  (forall i, (i < List.length pre)%nat ->
             wordThenNumber (js "longer than") (drop i lq) = None) ->
  Filters.min_length (Part002.parseFilters lq) = Some (digitsValue ds + 1).
Proof.
  intros lq Hws Hspace Hds Hdigits Hstop Hleft. subst lq.
  rewrite Part002_parseFilters_min_length.
  rewrite regexSearch_wordThenNumber by assumption. reflexivity.
Qed.

(** Rule 5 in [src/unnamed/part_002]: where the text reads
    [contains <c>] or [letter <c>] for a lower-case letter or a digit [c],
    no earlier position matches the rule and "first vowel" is absent,
    [contains_character] is [c]. *)
Lemma containsOrLetter_here (class : Z -> bool) (word ws rest : jsstring) (c : Z) :
  word = js "contains" \/ word = js "letter" ->
  ws <> [] -> forallb isWhiteSpace ws = true ->
  class c = true -> isWhiteSpace c = false ->
  containsOrLetter class (word ++ ws ++ c :: rest) = Some [c].
Proof.
  intros Hword Hws Hspace Hclass Hc. unfold containsOrLetter.
  assert (Hafter : match stripPrefix (js "contains") (word ++ ws ++ c :: rest) with
                   | Some r => Some r
                   | None => stripPrefix (js "letter") (word ++ ws ++ c :: rest)
                   end = Some (ws ++ c :: rest)).
  { destruct Hword as [-> | ->].
    - rewrite stripPrefix_app. reflexivity.
    - rewrite (stripPrefix_app (js "letter")). reflexivity. }
  rewrite Hafter.
  destruct (takeWhile_dropWhile_app isWhiteSpace ws (c :: rest) Hspace) as [-> ->].
  { simpl. intros ? [= <-]. exact Hc. }
  destruct ws; [congruence|]. rewrite Hclass. reflexivity.
Qed.

(** X29.  Rule 5 of [part_002]: where the lower-cased query reads
    "contains" or "letter", white space, then a lower-case letter or a
    digit [c], no earlier position matches the rule and "first vowel" does
    not occur, [contains_character] is [c]. *)
Lemma Part002_contains_or_letter (word pre ws rest : jsstring) (c : Z) :
  let lq := pre ++ word ++ ws ++ c :: rest in
  word = js "contains" \/ word = js "letter" ->
  ws <> [] -> forallb isWhiteSpace ws = true ->
  isLowerAlnum c = true ->
  (forall i, (i < List.length pre)%nat ->
             containsOrLetter isLowerAlnum (drop i lq) = None) ->
  includes lq (js "first vowel") = false ->
  Filters.contains_character (Part002.parseFilters lq) = Some [c].
Proof.
  intros lq Hword Hws Hspace Hclass Hleft Hvowel. subst lq.
  rewrite Part002_parseFilters_contains_character, Hvowel.
  apply regexSearch_leftmost; [exact Hleft|].
  apply containsOrLetter_here; auto using isLowerAlnum_not_whiteSpace.
Qed.

(** The rules at work on "strings shorter than 12 please" and on
    "strings with the letter z". *)
Example Part002_shorter_than_12 :
  Filters.max_length (Part002.parseFilters (js "strings shorter than 12 please"))
  = Some 11.
Proof.
  apply (Part002_shorter_than (js "strings ") (js " ") (js "12") (js " please"));
    try reflexivity; try discriminate.
  - intros c [= <-]. reflexivity.
  - intros i Hi. simpl in Hi.
    do 8 (destruct i as [|i]; [vm_compute; reflexivity|]). lia.
Defined.

Example Part002_letter_z :
  Filters.contains_character (Part002.parseFilters (js "strings with the letter z"))
  = Some (js "z").
Proof.
  apply (Part002_contains_or_letter (js "letter") (js "strings with the ")
           (js " ") [] 122); try reflexivity; try discriminate.
  - right. reflexivity.
  - intros i Hi. simpl in Hi.
    do 17 (destruct i as [|i]; [vm_compute; reflexivity|]). lia.
Defined.

(** The leftmost match decides: in "contains letter z" the rule matches
    at "contains l", in both revisions; and "first vowel" overwrites what
    the rule found. *)
Example contains_letter_z_leftmost :
  Filters.contains_character (Part002.parseFilters (js "contains letter z"))
  = Some (js "l")
  /\ Filters.contains_character (ServerJs.parseFilters (js "contains letter z"))
     = Some (js "l")
  /\ Filters.contains_character (Part002.parseFilters (js "first vowel, contains z"))
     = Some (js "a").
Proof. repeat split; vm_compute; reflexivity. Qed.

(** The spec's example "palindromic strings longer than 3". *)
Example Part002_palindromic_longer_than_3 :
  Part002.parseFilters (js "palindromic strings longer than 3")
  = Filters.set_min_length 4 (Filters.set_is_palindrome true Filters.empty).
Proof. vm_compute. reflexivity. Qed.

(** * The conflict check and the filter *)

Lemma passesFilters_empty_range (f : Filters.t) (entry : Entry.t) (lo hi : Z) :
  Filters.min_length f = Some lo -> Filters.max_length f = Some hi -> hi < lo ->
  passesFilters f entry = false.
Proof.
  intros Hlo Hhi Hlt. unfold passesFilters. rewrite Hlo, Hhi. simpl.
  destruct (holdsWhenSet (Filters.is_palindrome f) _); simpl; [|reflexivity].
  destruct (Z.ltb_spec (Properties.length (Entry.properties entry)) lo);
    simpl; [reflexivity|].
  destruct (Z.ltb_spec hi (Properties.length (Entry.properties entry)));
    simpl; [reflexivity|lia].
Qed.

Lemma filter_none {A} (p : A -> bool) (l : list A) :
  (forall x, p x = false) -> List.filter p l = [].
Proof.
  intros Hp. induction l as [|x l IH]; simpl; [reflexivity|].
  rewrite Hp. exact IH.
Qed.

(** [src/unnamed/part_002] sees a conflict when both bounds are set,
    neither is 0, and the lower one is above the upper one. *)
Lemma Part002_conflicting_iff (f : Filters.t) :
  Part002.conflicting f = true
  <-> exists lo hi,
        Filters.min_length f = Some lo /\ Filters.max_length f = Some hi
        /\ hi < lo /\ lo <> 0 /\ hi <> 0.
Proof.
  unfold Part002.conflicting, Part002.truthy.
  destruct (Filters.min_length f) as [lo|], (Filters.max_length f) as [hi|]; simpl.
  - split.
    + intros H. exists lo, hi. repeat split; lia.
    + intros (lo' & hi' & [= <-] & [= <-] & ? & ? & ?). lia.
  - split; [rewrite andb_false_r; discriminate|].
    intros (? & ? & _ & [=] & _).
  - split; [discriminate|]. intros (? & ? & [=] & _).
  - split; [discriminate|]. intros (? & ? & [=] & _).
Qed.

(** The handler on a request with a non-empty query. *)
Lemma Part002_filterByNaturalLanguage_run (toLowerCase : jsstring -> jsstring)
    (storage : Storage.api) (others : gmap string (list Z)) (q : jsstring) :
  q <> [] ->
  Part002.filterByNaturalLanguage toLowerCase storage (naturalLanguageRequest others q)
  = if Part002.conflicting (Part002.parseFilters (toLowerCase q))
    then ret (sendError 422 "Query parsed but resulted in conflicting length filters")
    else respondInterpreted storage q (Part002.parseFilters (toLowerCase q)).
Proof.
  intros Hq. unfold Part002.filterByNaturalLanguage.
  change (query (naturalLanguageRequest others q))
    with (<["query"%string := q]> others).
  rewrite lookup_insert_eq. destruct q as [|c q]; [congruence|reflexivity].
Qed.

(** A conflict is answered 422 before the store is read. *)
Lemma Part002_conflict_rejected (toLowerCase : jsstring -> jsstring)
    (storage : Storage.api) (others : gmap string (list Z)) (q : jsstring) (st : Store) :
  q <> [] ->
  Part002.conflicting (Part002.parseFilters (toLowerCase q)) = true ->
  Part002.filterByNaturalLanguage toLowerCase storage (naturalLanguageRequest others q) st
  = (sendError 422 "Query parsed but resulted in conflicting length filters", st).
Proof.
  intros Hq Hconflict.
  rewrite Part002_filterByNaturalLanguage_run by exact Hq.
  rewrite Hconflict. reflexivity.
Qed.

(** The spec's example "longer than 10 and shorter than 5" is rejected by
    [src/unnamed/part_002]. *)
Example Part002_longer_10_shorter_5_rejected (storage : Storage.api) (st : Store) :
  Part002.filterByNaturalLanguage asciiToLowerCase storage
    (naturalLanguageRequest ∅ (js "longer than 10 and shorter than 5")) st
  = (sendError 422 "Query parsed but resulted in conflicting length filters", st).
Proof. apply Part002_conflict_rejected; [discriminate|vm_compute; reflexivity]. Qed.

(** In [src/server.js] no rule assigns [max_length], so its conflict
    check never fires. *)
Lemma ServerJs_never_conflicting (lq : jsstring) :
  ServerJs.conflicting (ServerJs.parseFilters lq) = false.
Proof.
  unfold ServerJs.conflicting. rewrite ServerJs_parseFilters_max_length.
  destruct (Filters.min_length _); reflexivity.
Qed.

(** C2, at [src/unnamed/part_002].  The conflict check tests the two
    bounds for truth, and 0 is false: the query
    "longer than 5 and shorter than 1" gives [min_length = 6] and
    [max_length = 0], is not rejected, and is answered 200 with an empty
    result set, whatever the store holds. *)
Theorem Part002_max_length_zero_not_rejected :
  let q := js "longer than 5 and shorter than 1" in
  Part002.parseFilters q
  = Filters.set_max_length 0 (Filters.set_min_length 6 Filters.empty)
  /\ Part002.conflicting (Part002.parseFilters q) = false
  /\ forall st : Store,
       Forall (fun storage =>
                 Part002.filterByNaturalLanguage asciiToLowerCase storage
                   (naturalLanguageRequest ∅ q) st
                 = ({| status := 200;
                       body := InterpretedBody [] 0 q (Part002.parseFilters q) |}, st))
         storages.
Proof.
  intros q.
  assert (Hparse : Part002.parseFilters q
                   = Filters.set_max_length 0 (Filters.set_min_length 6 Filters.empty))
    by (vm_compute; reflexivity).
  split; [exact Hparse|]. split; [rewrite Hparse; reflexivity|].
  intros st.
  assert (Hlower : asciiToLowerCase q = q) by (vm_compute; reflexivity).
  assert (Hrun : forall storage,
             Storage.getAll storage st = (snd <$> st, st) ->
             Part002.filterByNaturalLanguage asciiToLowerCase storage
               (naturalLanguageRequest ∅ q) st
             = ({| status := 200;
                   body := InterpretedBody [] 0 q (Part002.parseFilters q) |}, st)).
  { intros storage HgetAll.
    rewrite Part002_filterByNaturalLanguage_run by discriminate.
    rewrite Hlower, Hparse.
    change (Part002.conflicting _) with false. cbv iota.
    unfold respondInterpreted, bind. rewrite HgetAll.
    rewrite filter_none; [reflexivity|].
    intros entry. apply (passesFilters_empty_range _ entry 6 0); [reflexivity|reflexivity|lia]. }
  unfold storages. repeat constructor; apply Hrun; reflexivity.
Qed.

(** The handler function of [src/server.js], which the routes of that
    file never give a request to, has no "shorter than" rule: whatever
    the query, [max_length] stays undefined; "shorter than 5" yields no
    filter at all, where [src/unnamed/part_002] yields [max_length = 4]. *)
Theorem ServerJs_shorter_than_not_parsed :
  (forall lowerQuery : jsstring,
      Filters.max_length (ServerJs.parseFilters lowerQuery) = None)
  /\ ServerJs.parseFilters (js "shorter than 5") = Filters.empty
  /\ Filters.max_length (Part002.parseFilters (js "shorter than 5")) = Some 4.
Proof.
  split; [exact ServerJs_parseFilters_max_length|].
  split; vm_compute; reflexivity.
Qed.

(** The same handler function tests "single word" only: the query
    "one word" yields no filter, where [src/unnamed/part_002] yields
    [word_count = 1]. *)
Theorem ServerJs_one_word_not_parsed :
  (forall lowerQuery : jsstring,
      Filters.word_count (ServerJs.parseFilters lowerQuery)
      = if includes lowerQuery (js "single word") then Some 1 else None)
  /\ ServerJs.parseFilters (js "one word") = Filters.empty
  /\ Filters.word_count (Part002.parseFilters (js "one word")) = Some 1.
Proof.
  split; [exact ServerJs_parseFilters_word_count|].
  split; vm_compute; reflexivity.
Qed.

Lemma containsOrLetter_Some (class : Z -> bool) (s r : jsstring) :
  containsOrLetter class s = Some r -> exists c, r = [c] /\ class c = true.
Proof.
  unfold containsOrLetter.
  destruct (match stripPrefix (js "contains") s with
            | Some rest => Some rest
            | None => stripPrefix (js "letter") s
            end) as [rest|]; [|discriminate].
  destruct (takeWhile isWhiteSpace rest); [discriminate|].
  destruct (dropWhile isWhiteSpace rest) as [|c t]; [discriminate|].
  destruct (class c) eqn:Hc; [|discriminate].
  intros [= <-]. eauto.
Qed.

(** The character class of its rule is [a-z]: the query "contains 7"
    yields no filter, where [src/unnamed/part_002] yields
    [contains_character = "7"]; whatever the query, the character the
    handler function of [src/server.js] yields is a lower-case letter,
    never a digit. *)
Theorem ServerJs_contains_digit_not_parsed :
  ServerJs.parseFilters (js "contains 7") = Filters.empty
  /\ Filters.contains_character (Part002.parseFilters (js "contains 7")) = Some (js "7")
  /\ forall lowerQuery : jsstring,
       match Filters.contains_character (ServerJs.parseFilters lowerQuery) with
       | Some [c] => isLowerAZ c = true /\ isDigit c = false
       | Some _ => False
       | None => True
       end.
Proof.
  split; [vm_compute; reflexivity|]. split; [vm_compute; reflexivity|].
  intros lq. rewrite ServerJs_parseFilters_contains_character.
  destruct (includes lq (js "first vowel")); [vm_compute; auto|].
  destruct (regexSearch (containsOrLetter isLowerAZ) lq) as [r|] eqn:Hsearch; [|exact I].
  apply regexSearch_Some in Hsearch as (pre & rest & _ & Hhere).
  apply containsOrLetter_Some in Hhere as (c & -> & Hc).
  split; [exact Hc|]. unfold isLowerAZ, isDigit, inRange in *. lia.
Qed.

(** * Validation of the query parameters *)

(** A value whose [parseInt] is NaN or negative is refused with a message
    that names the field. *)
Lemma checkInteger_rejects (radix : option Z) (field : string)
    (set : Z -> Filters.t -> Filters.t) (q : gmap string (list Z))
    (f : Filters.t) (v : jsstring) :
  q !! field = Some v ->
  parseInt v radix = None \/ (exists n, parseInt v radix = Some n /\ n < 0) ->
  checkInteger radix field set q f = inl (field +:+ " must be a positive integer")%string.
Proof.
  intros Hv Hbad. unfold checkInteger. rewrite Hv.
  destruct Hbad as [-> | (n & -> & Hn)]; [reflexivity|].
  destruct (Z.ltb_spec n 0); [reflexivity|lia].
Qed.

(** A value whose [parseInt] is a number that is not negative is taken,
    whatever follows the digits. *)
Lemma checkInteger_accepts (radix : option Z) (field : string)
    (set : Z -> Filters.t -> Filters.t) (q : gmap string (list Z))
    (f : Filters.t) (v : jsstring) (n : Z) :
  q !! field = Some v -> parseInt v radix = Some n -> 0 <= n ->
  checkInteger radix field set q f = inr (set n f).
Proof.
  intros Hv Hn Hpos. unfold checkInteger. rewrite Hv, Hn.
  destruct (Z.ltb_spec n 0); [lia|reflexivity].
Qed.

(** [GET /strings?min_length=v] with such a [v] is answered 400, the
    message names [min_length], and the store is left as it was. *)
Lemma getStrings_rejects_min_length (storage : Storage.api) (radix : option Z)
    (v : jsstring) (st : Store) :
  In storage storages ->
  parseInt v radix = None \/ (exists n, parseInt v radix = Some n /\ n < 0) ->
  getStrings storage radix (stringsRequest (oneParameter "min_length" v)) st
  = (sendError 400 "Invalid query parameter: min_length must be a positive integer", st).
Proof.
  intros Hin Hbad. unfold getStrings, bind.
  assert (HgetAll : Storage.getAll storage st = (snd <$> st, st))
    by (destruct Hin as [<- | [<- | []]]; reflexivity).
  rewrite HgetAll.
  change (query (stringsRequest (oneParameter "min_length" v)))
    with (oneParameter "min_length" v).
  assert (Hv : validateQuery radix (oneParameter "min_length" v)
               = inl "min_length must be a positive integer"%string).
  { unfold validateQuery, checkIsPalindrome, oneParameter.
    rewrite lookup_singleton_ne by discriminate. simpl andThen.
    rewrite (checkInteger_rejects radix "min_length" _ _ _ v);
      [reflexivity|apply lookup_singleton_eq|exact Hbad]. }
  rewrite Hv. reflexivity.
Qed.

(** C9, at both revisions.  [parseInt] reads the longest numeric prefix
    and ignores the rest, so "3.7" is taken as 3 and "5abc" as 5:
    [GET /strings?min_length=3.7] is answered 200 with
    [filters_applied = { min_length: 3 }] instead of 400.  ("-1" and "abc"
    are refused.) *)
Theorem getStrings_accepts_numeric_prefix :
  Forall (fun radix =>
            validateQuery radix (oneParameter "min_length" (js "3.7"))
            = inr (Filters.set_min_length 3 Filters.empty)
            /\ validateQuery radix (oneParameter "max_length" (js "5abc"))
               = inr (Filters.set_max_length 5 Filters.empty)
            /\ validateQuery radix (oneParameter "word_count" (js "-1"))
               = inl "word_count must be a positive integer"%string
            /\ validateQuery radix (oneParameter "word_count" (js "abc"))
               = inl "word_count must be a positive integer"%string)
    radixes
  /\ forall (toLowerCase sha256_hex : jsstring -> jsstring) (now : jsstring) (st : Store),
       Forall (fun app =>
                 app (stringsRequest (oneParameter "min_length" (js "3.7"))) now st
                 = (let data := List.filter
                                  (passesFilters (Filters.set_min_length 3 Filters.empty))
                                  (snd <$> st) in
                    {| status := 200;
                       body := FilteredBody data (Z.of_nat (List.length data))
                                 (Filters.set_min_length 3 Filters.empty) |}, st))
         (applications toLowerCase sha256_hex).
Proof.
  assert (Hv : forall radix, In radix radixes ->
                 validateQuery radix (oneParameter "min_length" (js "3.7"))
                 = inr (Filters.set_min_length 3 Filters.empty)).
  { intros radix [<- | [<- | []]]; vm_compute; reflexivity. }
  split.
  - unfold radixes. repeat constructor; vm_compute; reflexivity.
  - intros toLowerCase sha256_hex now st.
    unfold applications. repeat constructor;
      unfold ServerJs.app, Part002.app, serve;
      change (dispatch _ (stringsRequest (oneParameter "min_length" (js "3.7"))))
        with (Some (GetStrings, @nil (string * list Z)));
      cbv beta iota; unfold getStrings, bind;
      change (query (stringsRequest (oneParameter "min_length" (js "3.7"))))
        with (oneParameter "min_length" (js "3.7"));
      simpl Storage.getAll;
      unfold StorageJs.getAll, Part001.getAll, bind, readStore, ret;
      rewrite Hv by (unfold radixes; simpl; auto); reflexivity.
Qed.

(** * More on the store: insertion, deletion, the shape of [dataStore] *)

Lemma storeGet_None_iff (st : Store) (id : jsstring) :
  storeGet st id = None <-> id ∉ fst <$> st.
Proof.
  induction st as [|[k e] st IH]; simpl.
  - split; [intros _; apply not_elem_of_nil|reflexivity].
  - rewrite not_elem_of_cons. destruct (bool_decide (k = id)) eqn:Hk.
    + apply bool_decide_eq_true in Hk. subst k.
      split; [discriminate|intros [Hne _]; congruence].
    + apply bool_decide_eq_false in Hk. rewrite IH.
      split; [intros H; split; [congruence|exact H]|intros [_ H]; exact H].
Qed.

Lemma storeSet_fresh (st : Store) (id : jsstring) (entry : Entry.t) :
  storeGet st id = None -> storeSet st id entry = st ++ [(id, entry)].
Proof.
  induction st as [|[k e] st IH]; simpl; [reflexivity|].
  destruct (bool_decide (k = id)); [discriminate|].
  intros H. rewrite (IH H). reflexivity.
Qed.

Lemma storeGet_app_fresh (st : Store) (id id' : jsstring) (entry : Entry.t) :
  storeGet (st ++ [(id, entry)]) id'
  = match storeGet st id' with
    | Some e => Some e
    | None => if bool_decide (id = id') then Some entry else None
    end.
Proof.
  induction st as [|[k e] st IH]; simpl; [reflexivity|].
  destruct (bool_decide (k = id')); [reflexivity|exact IH].
Qed.

Lemma storeGet_storeDelete (st : Store) (id id' : jsstring) :
  storeGet (storeDelete st id) id'
  = if bool_decide (id = id') then None else storeGet st id'.
Proof.
  unfold storeDelete. induction st as [|[k e] st IH]; simpl.
  - destruct (bool_decide (id = id')); reflexivity.
  - rewrite filter_cons. simpl. destruct (decide (k <> id)) as [Hk|Hk]; simpl.
    + rewrite IH. destruct (bool_decide (id = id')) eqn:Hid;
        destruct (bool_decide (k = id')) eqn:Hk'; try reflexivity.
      apply bool_decide_eq_true in Hid, Hk'. congruence.
    + assert (k = id) as -> by (destruct (decide (k = id)); [assumption|contradiction]).
      rewrite IH. destruct (bool_decide (id = id')); reflexivity.
Qed.

Lemma storeDelete_missing (st : Store) (id : jsstring) :
  storeGet st id = None -> storeDelete st id = st.
Proof.
  unfold storeDelete. induction st as [|[k e] st IH]; simpl; [reflexivity|].
  destruct (bool_decide (k = id)) eqn:Hk; [discriminate|].
  apply bool_decide_eq_false in Hk. intros H.
  rewrite filter_cons_True by exact Hk. rewrite (IH H). reflexivity.
Qed.

(** How [create] runs on a key that is not held. *)
Lemma storage_create_fresh (storage : Storage.api) (st : Store) (id : jsstring)
    (data : EntryData) (now : jsstring) :
  In storage storages -> storeGet st id = None -> id <> [] ->
  Storage.create storage id data now st
  = (Some (newEntry id data now), st ++ [(id, newEntry id data now)]).
Proof.
  intros Hin Hfree Hid.
  destruct Hin as [<- | [<- | []]]; simpl.
  - unfold StorageJs.create. destruct id as [|c id]; [congruence|].
    unfold bind, readStore, writeStore, ret. rewrite Hfree.
    rewrite storeSet_fresh by exact Hfree. reflexivity.
  - unfold Part001.create, bind, readStore, writeStore, ret. rewrite Hfree.
    rewrite storeSet_fresh by exact Hfree. reflexivity.
Qed.

Lemma storage_deleteById_run (storage : Storage.api) (st : Store) (id : jsstring) :
  In storage storages ->
  Storage.deleteById storage id st
  = match storeGet st id with
    | Some _ => (true, storeDelete st id)
    | None => (false, st)
    end.
Proof.
  intros [<- | [<- | []]]; simpl;
    unfold StorageJs.deleteById, Part001.deleteById, bind, readStore, writeStore, ret;
    destruct (storeGet st id); reflexivity.
Qed.

Lemma storage_getById_run (storage : Storage.api) (st : Store) (id : jsstring) :
  In storage storages -> Storage.getById storage id st = (storeGet st id, st).
Proof. intros [<- | [<- | []]]; reflexivity. Qed.

Lemma storage_getAll_run (storage : Storage.api) (st : Store) :
  In storage storages -> Storage.getAll storage st = (snd <$> st, st).
Proof. intros [<- | [<- | []]]; reflexivity. Qed.

Lemma isDigest_nonempty (id : jsstring) : isDigest id = true -> id <> [].
Proof. intros H ->. discriminate H. Qed.

(** X1.  For the ids the servers use (SHA-256 digests in hexadecimal), in
    a store whose keys are such ids: [create] on an id that is not held
    returns the new record, made of the id, the value and properties given
    and the time of the call, and puts it last in the store; [getById] of
    the id then returns it, every other digest reads as before, and
    [getAll] is the former list with the record appended. *)
Theorem create_fresh_then_read :
  forall (st : Store) (id : jsstring) (data : EntryData) (now : jsstring),
    isDigest id = true ->
    Forall (fun kv => isDigest kv.1 = true) st ->
    storeGet st id = None ->
    Forall (fun storage =>
              let entry := newEntry id data now in
              let st' := st ++ [(id, entry)] in
              Storage.create storage id data now st = (Some entry, st')
              /\ Storage.getById storage id st' = (Some entry, st')
              /\ (forall id', isDigest id' = true -> id' <> id ->
                    Storage.getById storage id' st' = (storeGet st id', st'))
              /\ Storage.getAll storage st'
                 = (fst (Storage.getAll storage st) ++ [entry], st'))
      storages.
Proof.
  intros st id data now Hdigest _ Hfree.
  pose proof (isDigest_nonempty id Hdigest) as Hid.
  apply List.Forall_forall. intros storage Hin. cbv zeta.
  rewrite (storage_create_fresh storage st id data now Hin Hfree Hid).
  rewrite !storage_getById_run, !storage_getAll_run by exact Hin.
  split; [reflexivity|]. split; [|split].
  - rewrite storeGet_app_fresh, Hfree, bool_decide_eq_true_2; reflexivity.
  - intros id' _ Hne. rewrite storage_getById_run by exact Hin.
    rewrite storeGet_app_fresh.
    destruct (storeGet st id'); [reflexivity|].
    rewrite bool_decide_eq_false_2; [reflexivity|congruence].
  - simpl fst. rewrite fmap_app. reflexivity.
Qed.

(** X1 on the digest of "hello" and the store that holds "Madam". *)
Lemma create_fresh_then_read_witness :
  Storage.create Part001.storage helloSha256
    {| data_value := js "hello";
       data_properties := analyzeString asciiToLowerCase plainDigest (js "hello") |}
    (js "t") digestStore
  = (Some (newEntry helloSha256
             {| data_value := js "hello";
                data_properties :=
                  analyzeString asciiToLowerCase plainDigest (js "hello") |} (js "t")),
     digestStore
     ++ [(helloSha256,
          newEntry helloSha256
            {| data_value := js "hello";
               data_properties :=
                 analyzeString asciiToLowerCase plainDigest (js "hello") |} (js "t"))]).
Proof.
  assert (Hkeys : Forall (fun kv : list Z * Entry.t => isDigest kv.1 = true) digestStore)
    by (repeat constructor).
  pose proof (create_fresh_then_read digestStore helloSha256
                {| data_value := js "hello";
                   data_properties :=
                     analyzeString asciiToLowerCase plainDigest (js "hello") |}
                (js "t") eq_refl Hkeys eq_refl) as H.
  apply List.Forall_forall with (x := Part001.storage) in H;
    [apply H | right; left; reflexivity].
Defined.

(** X2.  [src/storage.js] answers null and leaves the store when the id is
    the empty string or the data is null, held or not; [part_001] has no
    such guard and stores a record under the empty id. *)
Theorem create_guard_of_storage_js :
  forall (st : Store) (id : jsstring) (data : EntryData) (now : jsstring),
    StorageJs.create [] (Some data) now st = (None, st)
    /\ StorageJs.create id None now st = (None, st)
    /\ (storeGet st [] = None ->
        Part001.create [] data now st
        = (Some (newEntry [] data now), st ++ [([], newEntry [] data now)])).
Proof.
  intros st id data now. split; [reflexivity|]. split.
  - destruct id; reflexivity.
  - intros Hfree. unfold Part001.create, bind, readStore, writeStore, ret.
    rewrite Hfree, storeSet_fresh by exact Hfree. reflexivity.
Qed.

(** X3.  For the ids the servers use (SHA-256 digests in hexadecimal):
    [deleteById] answers true on a held id and removes it (the id then
    reads undefined), answers false on an id that is not held and leaves
    the store; either way every other digest reads as before. *)
Theorem deleteById_removes_only_that_id :
  forall (st : Store) (id : jsstring),
    isDigest id = true ->
    Forall (fun storage =>
              let '(deleted, st') := Storage.deleteById storage id st in
              deleted = bool_decide (is_Some (storeGet st id))
              /\ (deleted = false -> st' = st)
              /\ Storage.getById storage id st' = (None, st')
              /\ forall id', isDigest id' = true -> id' <> id ->
                   Storage.getById storage id' st' = (storeGet st id', st'))
      storages.
Proof.
  intros st id _. apply List.Forall_forall. intros storage Hin.
  rewrite (storage_deleteById_run storage st id Hin).
  destruct (storeGet st id) as [e|] eqn:Hget.
  - split; [reflexivity|]. split; [discriminate|].
    rewrite storage_getById_run by exact Hin. split.
    + rewrite storeGet_storeDelete, bool_decide_eq_true_2; reflexivity.
    + intros id' _ Hne. rewrite storage_getById_run by exact Hin.
      rewrite storeGet_storeDelete, bool_decide_eq_false_2; [reflexivity|congruence].
  - split; [reflexivity|]. split; [reflexivity|].
    rewrite storage_getById_run by exact Hin. split; [rewrite Hget; reflexivity|].
    intros id' _ Hne. rewrite storage_getById_run by exact Hin. reflexivity.
Qed.

(** X3 on the store that holds "Madam". *)
Lemma deleteById_removes_only_that_id_witness :
  let '(deleted, st') := Storage.deleteById StorageJs.storage madamSha256 digestStore in
  deleted = bool_decide (is_Some (storeGet digestStore madamSha256))
  /\ (deleted = false -> st' = digestStore)
  /\ Storage.getById StorageJs.storage madamSha256 st' = (None, st')
  /\ forall id', isDigest id' = true -> id' <> madamSha256 ->
       Storage.getById StorageJs.storage id' st' = (storeGet digestStore id', st').
Proof.
  pose proof (deleteById_removes_only_that_id digestStore madamSha256 eq_refl) as H.
  apply List.Forall_forall with (x := StorageJs.storage) in H;
    [exact H | left; reflexivity].
Defined.

(** X4.  For the ids the servers use, in a store whose keys are such ids:
    after [deleteById] of a held id the id can be created again; the
    second [create] succeeds, the record carries the time of that call,
    and it stands last in the store, whatever place the deleted one
    had. *)
Theorem delete_then_create_again :
  forall (st : Store) (id : jsstring) (held : Entry.t) (data : EntryData)
         (now : jsstring),
    isDigest id = true ->
    Forall (fun kv => isDigest kv.1 = true) st ->
    storeGet st id = Some held ->
    Forall (fun storage =>
              let st1 := snd (Storage.deleteById storage id st) in
              st1 = storeDelete st id
              /\ Storage.create storage id data now st1
                 = (Some (newEntry id data now), st1 ++ [(id, newEntry id data now)]))
      storages.
Proof.
  intros st id held data now Hdigest _ Hheld.
  pose proof (isDigest_nonempty id Hdigest) as Hid.
  apply List.Forall_forall. intros storage Hin. cbv zeta.
  rewrite (storage_deleteById_run storage st id Hin), Hheld. simpl snd.
  split; [reflexivity|].
  apply storage_create_fresh; [exact Hin| |exact Hid].
  rewrite storeGet_storeDelete, bool_decide_eq_true_2; reflexivity.
Qed.

(** X4 on the store that holds "Madam". *)
Lemma delete_then_create_again_witness :
  Storage.create StorageJs.storage madamSha256
    {| data_value := js "Madam"; data_properties := Entry.properties madamEntry |}
    (js "later") (snd (Storage.deleteById StorageJs.storage madamSha256 digestStore))
  = (Some (newEntry madamSha256
             {| data_value := js "Madam";
                data_properties := Entry.properties madamEntry |} (js "later")),
     snd (Storage.deleteById StorageJs.storage madamSha256 digestStore)
     ++ [(madamSha256,
          newEntry madamSha256
            {| data_value := js "Madam";
               data_properties := Entry.properties madamEntry |} (js "later"))]).
Proof.
  assert (Hkeys : Forall (fun kv : list Z * Entry.t => isDigest kv.1 = true) digestStore)
    by (repeat constructor).
  pose proof (delete_then_create_again digestStore madamSha256 madamRecord
                {| data_value := js "Madam";
                   data_properties := Entry.properties madamEntry |} (js "later")
                eq_refl Hkeys eq_refl) as H.
  apply List.Forall_forall with (x := StorageJs.storage) in H;
    [apply H | left; reflexivity].
Defined.

Lemma storage_create_cases (storage : Storage.api) (st : Store) (id : jsstring)
    (data : EntryData) (now : jsstring) :
  In storage storages ->
  snd (Storage.create storage id data now st) = st
  \/ (storeGet st id = None
      /\ snd (Storage.create storage id data now st)
         = st ++ [(id, newEntry id data now)]).
Proof.
  intros Hin. destruct (storeGet st id) as [e|] eqn:Hget.
  - left. destruct Hin as [<- | [<- | []]]; simpl.
    + rewrite (StorageJs_create_present st id e _ now Hget). reflexivity.
    + rewrite (Part001_create_present st id e _ now Hget). reflexivity.
  - destruct id as [|c id].
    + destruct Hin as [<- | [<- | []]]; simpl.
      * left. reflexivity.
      * right. split; [reflexivity|].
        unfold Part001.create, bind, readStore, writeStore, ret.
        rewrite Hget, storeSet_fresh by exact Hget. reflexivity.
    + right. split; [reflexivity|].
      rewrite (storage_create_fresh storage st (c :: id) data now Hin Hget);
        [reflexivity|discriminate].
Qed.

Lemma wellFormed_snoc (st : Store) (id : jsstring) (entry : Entry.t) :
  wellFormed st -> storeGet st id = None -> Entry.id entry = id ->
  wellFormed (st ++ [(id, entry)]).
Proof.
  intros [Hkeys Hids] Hfree Hid. split.
  - rewrite fmap_app. apply NoDup_app. split; [exact Hkeys|]. split.
    + intros k Hk. simpl. rewrite list_elem_of_singleton. intros ->.
      apply storeGet_None_iff in Hfree. contradiction.
    + simpl. apply NoDup_singleton.
  - apply Forall_app. split; [exact Hids|]. repeat constructor. exact Hid.
Qed.

Lemma wellFormed_storeDelete (st : Store) (id : jsstring) :
  wellFormed st -> wellFormed (storeDelete st id).
Proof.
  intros [Hkeys Hids]. split.
  - induction st as [|[k e] st IH]; [exact Hkeys|].
    simpl in Hkeys. apply NoDup_cons in Hkeys as [Hk Hkeys].
    apply Forall_cons in Hids as [_ Hids].
    unfold storeDelete. rewrite filter_cons.
    destruct (decide ((k, e).1 <> id)); [|apply IH; assumption].
    simpl. apply NoDup_cons. split; [|apply IH; assumption].
    apply storeGet_None_iff. fold (storeDelete st id).
    rewrite storeGet_storeDelete. destruct (bool_decide (id = k)); [reflexivity|].
    apply storeGet_None_iff. exact Hk.
  - unfold storeDelete. apply Forall_forall. intros kv Hin.
    apply list_elem_of_filter in Hin as [_ Hin].
    rewrite Forall_forall in Hids. apply Hids, Hin.
Qed.

Lemma storeDelete_length (st : Store) (id : jsstring) (e : Entry.t) :
  NoDup (fst <$> st) -> storeGet st id = Some e ->
  (List.length (storeDelete st id) + 1 = List.length st)%nat.
Proof.
  induction st as [|[k e0] st IH]; simpl; [discriminate|].
  intros Hkeys%NoDup_cons Hget. destruct Hkeys as [Hk Hkeys].
  unfold storeDelete. rewrite filter_cons. simpl.
  destruct (bool_decide (k = id)) eqn:Hkid.
  - apply bool_decide_eq_true in Hkid. subst k.
    destruct (decide (id <> id)) as [Hne|_]; [congruence|].
    fold (storeDelete st id). rewrite storeDelete_missing; [lia|].
    apply storeGet_None_iff. exact Hk.
  - apply bool_decide_eq_false in Hkid.
    destruct (decide (k <> id)) as [_|Hn]; [|contradiction].
    simpl. fold (storeDelete st id). specialize (IH Hkeys Hget). lia.
Qed.

(** X5.  For the ids the servers use (SHA-256 digests in hexadecimal),
    the shape of [dataStore] is kept by [create] and [deleteById]: from a
    store where each key stands once and holds a record with that id they
    lead to such a store; [create] adds one record when it returns one and
    none otherwise, and [deleteById] removes exactly one record when it
    answers true and none otherwise. *)
Theorem store_operations_keep_shape :
  forall st : Store,
    wellFormed st ->
    Forall (fun storage =>
              forall (id : jsstring) (data : EntryData) (now : jsstring),
                isDigest id = true ->
                wellFormed (snd (Storage.create storage id data now st))
                /\ wellFormed (snd (Storage.deleteById storage id st))
                /\ (List.length (snd (Storage.create storage id data now st))
                    = List.length st
                       + (match fst (Storage.create storage id data now st) with
                          | Some _ => 1
                          | None => 0
                          end))%nat
                /\ (List.length (snd (Storage.deleteById storage id st))
                    + (if fst (Storage.deleteById storage id st) then 1 else 0)
                    = List.length st)%nat)
      storages.
Proof.
  intros st Hwf. apply List.Forall_forall. intros storage Hin id data now Hdigest.
  pose proof (isDigest_nonempty id Hdigest) as Hid.
  rewrite (storage_deleteById_run storage st id Hin).
  split; [|split; [|split]].
  - destruct (storage_create_cases storage st id data now Hin) as [-> | [Hfree ->]];
      [exact Hwf|].
    apply wellFormed_snoc; [exact Hwf|exact Hfree|reflexivity].
  - destruct (storeGet st id); simpl; [apply wellFormed_storeDelete|]; exact Hwf.
  - destruct (storeGet st id) as [e|] eqn:Hget.
    + destruct Hin as [<- | [<- | []]]; simpl.
      * rewrite (StorageJs_create_present st id e _ now Hget). simpl. lia.
      * rewrite (Part001_create_present st id e _ now Hget). simpl. lia.
    + rewrite (storage_create_fresh storage st id data now Hin Hget Hid).
      simpl. rewrite length_app. simpl. lia.
  - destruct (storeGet st id) as [e|] eqn:Hget; simpl; [|lia].
    apply (storeDelete_length st id e); [apply Hwf|exact Hget].
Qed.

(** X5 on the store that holds "Madam". *)
Lemma store_operations_keep_shape_witness :
  wellFormed (snd (Storage.deleteById Part001.storage madamSha256 digestStore)).
Proof.
  assert (Hwf : wellFormed digestStore).
  { split; [apply NoDup_singleton|repeat constructor]. }
  pose proof (store_operations_keep_shape digestStore Hwf) as H.
  apply List.Forall_forall with (x := Part001.storage) in H; [|right; left; reflexivity].
  apply (H madamSha256
           {| data_value := []; data_properties := Entry.properties madamEntry |} []
           eq_refl).
Defined.

(** * More on the analyzer: the iterator, the counts, the words *)

Lemma codePoints_cons (c : Z) (s : jsstring) :
  codePoints (c :: s)
  = match s with
    | d :: rest' =>
        if isHighSurrogate c && isLowSurrogate d
        then [c; d] :: codePoints rest'
        else [c] :: codePoints s
    | [] => [[c]]
    end.
Proof. destruct s; reflexivity. Qed.

(** An induction that follows the iterator: one code unit or one
    surrogate pair at a time. *)
Lemma codePoints_ind (P : jsstring -> Prop) :
  P [] ->
  (forall c s, (match s with
                | d :: _ => isHighSurrogate c && isLowSurrogate d = false
                | [] => True
                end) -> P s -> P (c :: s)) ->
  (forall c d s, isHighSurrogate c && isLowSurrogate d = true -> P s -> P (c :: d :: s)) ->
  forall s, P s.
Proof.
  intros Hnil Hone Hpair s.
  enough (H : P s /\ forall c, P (c :: s)) by apply H.
  induction s as [|d s [IH1 IH2]].
  - split; [exact Hnil|]. intros c. apply Hone; [exact I|exact Hnil].
  - split; [apply IH2|]. intros c.
    destruct (isHighSurrogate c && isLowSurrogate d) eqn:Hcd.
    + apply Hpair; assumption.
    + apply Hone; [exact Hcd|apply IH2].
Qed.

(** X6.  The string iterator loses nothing: the characters it yields,
    put end to end, are the string; each is one code unit, or two when
    they are a high surrogate followed by a low surrogate. *)
Theorem codePoints_concat :
  forall s : jsstring,
    concat (codePoints s) = s
    /\ Forall (fun char =>
                 (exists c, char = [c])
                 \/ (exists c d, char = [c; d]
                                 /\ isHighSurrogate c = true /\ isLowSurrogate d = true))
         (codePoints s).
Proof.
  intros s. induction s as [|c s Hone [IH1 IH2]|c d s Hpair [IH1 IH2]]
    using codePoints_ind.
  - split; [reflexivity|constructor].
  - rewrite codePoints_cons. destruct s as [|d s].
    + split; [reflexivity|]. constructor; [left; eauto|constructor].
    + rewrite Hone. split.
      * rewrite concat_cons, IH1. reflexivity.
      * constructor; [left; eauto|exact IH2].
  - rewrite codePoints_cons, Hpair. split.
    + rewrite concat_cons, IH1. reflexivity.
    + constructor; [|exact IH2]. right. exists c, d.
      apply andb_prop in Hpair. tauto.
Qed.

Lemma foldl_countChar_lookup (chars : list jsstring) (m : gmap (list Z) Z)
    (char : jsstring) :
  foldl countChar m chars !! char
  = match List.filter (fun x => bool_decide (x = char)) chars with
    | [] => m !! char
    | occ => Some (default 0 (m !! char) + Z.of_nat (List.length occ))
    end.
Proof.
  revert m. induction chars as [|x chars IH]; intros m; simpl; [reflexivity|].
  rewrite IH. unfold countChar at 1 2.
  destruct (bool_decide (x = char)) eqn:Hx.
  - apply bool_decide_eq_true in Hx. subst x. rewrite lookup_insert_eq. simpl default.
    destruct (List.filter _ chars) as [|y occ]; simpl List.length; f_equal; lia.
  - apply bool_decide_eq_false in Hx. rewrite lookup_insert_ne by exact Hx.
    reflexivity.
Qed.

Section AnalyzerCounts.

Variable toLowerCase : jsstring -> jsstring.
Variable sha256_hex : jsstring -> jsstring.

Local Abbreviation analyze := (analyzeString toLowerCase sha256_hex).

(** X7.  [character_frequency_map] holds, for each character the
    iterator yields, the number of times it yields it, and nothing else:
    a character that does not occur has no entry, and no entry is 0. *)
Theorem character_frequency_map_counts :
  forall value char : jsstring,
    Properties.character_frequency_map (analyze value) !! char
    = if decide (occurrences char value = 0%nat) then None
      else Some (Z.of_nat (occurrences char value)).
Proof.
  intros value char. unfold analyzeString, frequencyMap, occurrences. simpl.
  rewrite foldl_countChar_lookup, lookup_empty.
  destruct (List.filter _ (codePoints value)) as [|x occ]; [reflexivity|].
  simpl List.length. destruct (decide (S (List.length occ) = 0%nat)); [lia|].
  simpl. f_equal.
Qed.

End AnalyzerCounts.

Lemma dom_foldl_countChar (chars : list jsstring) (m : gmap (list Z) Z) :
  dom (foldl countChar m chars) = dom m ∪ (list_to_set chars : gset (list Z)).
Proof.
  revert m. induction chars as [|x chars IH]; intros m; simpl.
  - change (list_to_set [] : gset (list Z)) with (∅ : gset (list Z)).
    rewrite (right_id_L ∅ (∪)). reflexivity.
  - rewrite IH. unfold countChar. rewrite dom_insert_L.
    rewrite (comm_L (∪) {[x]} (dom m)), <- (assoc_L (∪)). reflexivity.
Qed.

Lemma size_frequencyMap (value : jsstring) :
  size (frequencyMap value) = List.length (remove_dups (codePoints value)).
Proof.
  rewrite <- (size_dom (D := gset (list Z))). unfold frequencyMap.
  rewrite dom_foldl_countChar, dom_empty_L, (left_id_L ∅ (∪)).
  rewrite <- (size_list_to_set (C := gset (list Z)) (remove_dups (codePoints value)))
    by apply NoDup_remove_dups.
  f_equal. apply set_eq. intros x.
  rewrite !elem_of_list_to_set, elem_of_remove_dups. reflexivity.
Qed.

Lemma codePoints_nil (s : jsstring) : codePoints s = [] -> s = [].
Proof.
  destruct s as [|c s]; [reflexivity|]. rewrite codePoints_cons.
  destruct s as [|d s]; [discriminate|].
  destruct (isHighSurrogate c && isLowSurrogate d); discriminate.
Qed.

Lemma remove_dups_length_le {A} `{EqDecision A} (l : list A) :
  (List.length (remove_dups l) <= List.length l)%nat.
Proof.
  induction l as [|x l IH]; simpl; [lia|].
  destruct (decide_rel elem_of x l); simpl; lia.
Qed.

Lemma remove_dups_nil {A} `{EqDecision A} (l : list A) :
  remove_dups l = [] -> l = [].
Proof.
  destruct l as [|x l]; [reflexivity|]. intros H.
  assert (Hx : x ∈ remove_dups (x :: l)) by (apply elem_of_remove_dups; left).
  rewrite H in Hx. apply elem_of_nil in Hx. contradiction.
Qed.

(** The words of a string *)

Lemma wordRuns_dropWhile (s : jsstring) :
  wordRuns true (dropWhile isWhiteSpace s) = wordRuns true s.
Proof.
  induction s as [|c s IH]; simpl; [reflexivity|].
  destruct (isWhiteSpace c) eqn:Hc; [exact IH|].
  simpl. rewrite Hc. reflexivity.
Qed.

Lemma wordRuns_whiteSpace (b : bool) (tail : jsstring) :
  forallb isWhiteSpace tail = true -> wordRuns b tail = 0%nat.
Proof.
  revert b. induction tail as [|c tail IH]; intros b; simpl; [reflexivity|].
  intros [Hc Htail]%andb_prop. rewrite Hc. apply IH, Htail.
Qed.

Lemma wordRuns_app_whiteSpace (b : bool) (body tail : jsstring) :
  forallb isWhiteSpace tail = true -> wordRuns b (body ++ tail) = wordRuns b body.
Proof.
  intros Htail. revert b. induction body as [|c body IH]; intros b; simpl.
  - apply wordRuns_whiteSpace, Htail.
  - destruct (isWhiteSpace c); rewrite IH; reflexivity.
Qed.

Lemma takeWhile_dropWhile {A} (p : A -> bool) (l : list A) :
  takeWhile p l ++ dropWhile p l = l /\ forallb p (takeWhile p l) = true.
Proof.
  induction l as [|x l [IH1 IH2]]; simpl; [auto|].
  destruct (p x) eqn:Hx; simpl; [|auto].
  rewrite IH1, Hx, IH2. auto.
Qed.

Lemma dropWhile_head {A} (p : A -> bool) (l : list A) :
  match dropWhile p l with
  | [] => True
  | x :: _ => p x = false
  end.
Proof.
  induction l as [|x l IH]; simpl; [exact I|].
  destruct (p x) eqn:Hx; [exact IH|exact Hx].
Qed.

Lemma forallb_rev {A} (p : A -> bool) (l : list A) :
  forallb p l = true -> forallb p (rev l) = true.
Proof.
  rewrite !forallb_forall. intros H x Hx. apply H, in_rev, Hx.
Qed.

(** [trim] cuts white space at both ends and nothing else: what is left
    is empty or starts and ends with a code unit that is not white
    space. *)
Lemma trim_spec (s : jsstring) :
  exists tail,
    dropWhile isWhiteSpace s = trim s ++ tail
    /\ s = takeWhile isWhiteSpace s ++ trim s ++ tail
    /\ forallb isWhiteSpace tail = true
    /\ (trim s = []
        \/ exists c body pre x,
             trim s = c :: body /\ isWhiteSpace c = false
             /\ trim s = pre ++ [x] /\ isWhiteSpace x = false).
Proof.
  unfold trim.
  destruct (takeWhile_dropWhile isWhiteSpace s) as [Hs Hlead].
  set (s1 := dropWhile isWhiteSpace s) in *.
  destruct (takeWhile_dropWhile isWhiteSpace (rev s1)) as [Hl Htail].
  pose proof (dropWhile_head isWhiteSpace (rev s1)) as Hlast.
  pose proof (dropWhile_head isWhiteSpace s) as Hfirst. fold s1 in Hfirst.
  assert (Hs1 : s1 = rev (dropWhile isWhiteSpace (rev s1))
                     ++ rev (takeWhile isWhiteSpace (rev s1))).
  { rewrite <- rev_app_distr, Hl, rev_involutive. reflexivity. }
  exists (rev (takeWhile isWhiteSpace (rev s1))).
  split; [exact Hs1|].
  split; [rewrite <- Hs1; symmetry; exact Hs|].
  split; [apply forallb_rev, Htail|].
  destruct (dropWhile isWhiteSpace (rev s1)) as [|x d] eqn:Hd; [left; reflexivity|].
  right. simpl rev in *.
  destruct (rev d ++ [x]) as [|c body] eqn:Hcb.
  { destruct (rev d); discriminate. }
  exists c, body, (rev d), x.
  split; [reflexivity|]. split; [|split; [symmetry; exact Hcb|exact Hlast]].
  rewrite Hs1 in Hfirst. simpl in Hfirst. exact Hfirst.
Qed.

Lemma endsWord_cons (c : Z) (r pre : jsstring) (x : Z) :
  c :: r = pre ++ [x] ->
  (r = [] /\ c = x) \/ exists pre', r = pre' ++ [x].
Proof.
  destruct pre as [|p pre]; simpl; intros [= -> ->]; [left; auto|right; eauto].
Qed.

(** The number of pieces [split(/\s+/)] cuts a text into that does not
    end with white space. *)
Lemma splitWhiteSpaceFrom_length (s : jsstring) :
  forall cur : jsstring,
    ((exists pre x, s = pre ++ [x] /\ isWhiteSpace x = false) ->
     List.length (splitWhiteSpaceFrom true cur s) = wordRuns true s)
    /\ ((s = [] \/ exists pre x, s = pre ++ [x] /\ isWhiteSpace x = false) ->
        List.length (splitWhiteSpaceFrom false cur s) = S (wordRuns false s)).
Proof.
  induction s as [|c r IH]; intros cur.
  - split; [|reflexivity]. intros (pre & x & H & _). destruct pre; discriminate.
  - assert (Hrest : (exists pre x, c :: r = pre ++ [x] /\ isWhiteSpace x = false) ->
                    (r = [] /\ isWhiteSpace c = false)
                    \/ exists pre x, r = pre ++ [x] /\ isWhiteSpace x = false).
    { intros (pre & x & H & Hx).
      destruct (endsWord_cons c r pre x H) as [[-> ->] | [pre' ->]]; eauto. }
    simpl. destruct (isWhiteSpace c) eqn:Hc.
    + split.
      * intros Hends. destruct (Hrest Hends) as [[_ Hcontra] | Hr]; [congruence|].
        apply (IH cur), Hr.
      * intros [Hnil | Hends]; [discriminate|].
        destruct (Hrest Hends) as [[_ Hcontra] | Hr]; [congruence|].
        simpl. f_equal. apply (IH []), Hr.
    + split.
      * intros Hends. simpl.
        apply (IH (cur ++ [c])). destruct (Hrest Hends) as [[-> _] | Hr]; auto.
      * intros [Hnil | Hends]; [discriminate|]. simpl.
        apply (IH (cur ++ [c])). destruct (Hrest Hends) as [[-> _] | Hr]; auto.
Qed.

Lemma wordCount_wordRuns (value : jsstring) :
  wordCount value = Z.of_nat (wordRuns true value).
Proof.
  unfold wordCount, splitWhiteSpace.
  destruct (trim_spec value) as (tail & Hdrop & _ & Htail & Hshape).
  assert (Hruns : wordRuns true value = wordRuns true (trim value)).
  { rewrite <- wordRuns_dropWhile, Hdrop.
    apply wordRuns_app_whiteSpace, Htail. }
  rewrite Hruns.
  destruct Hshape as [-> | (c & body & pre & x & Hhead & Hc & Hlast & Hx)];
    [reflexivity|].
  destruct (splitWhiteSpaceFrom_length (trim value) []) as [_ Hsplit].
  rewrite Hsplit by (right; eauto).
  rewrite Hhead. simpl List.length. simpl wordRuns. rewrite Hc.
  destruct (Z.ltb_spec 0 (Z.of_nat (S (List.length body)))); [|lia].
  reflexivity.
Qed.

Lemma wordRuns_zero_iff (s : jsstring) :
  wordRuns true s = 0%nat <-> forallb isWhiteSpace s = true.
Proof.
  induction s as [|c s IH]; simpl; [tauto|].
  destruct (isWhiteSpace c); simpl; [exact IH|].
  split; [lia|discriminate].
Qed.

Section AnalyzerWords.

Variable toLowerCase : jsstring -> jsstring.
Variable sha256_hex : jsstring -> jsstring.

Local Abbreviation analyze := (analyzeString toLowerCase sha256_hex).

(** X8.  [unique_characters] is the number of distinct characters the
    iterator yields; it is at most [length], and it is 0 for the empty
    string only. *)
Theorem unique_characters_distinct :
  forall value : jsstring,
    Properties.unique_characters (analyze value)
    = Z.of_nat (List.length (remove_dups (codePoints value)))
    /\ 0 <= Properties.unique_characters (analyze value)
         <= Properties.length (analyze value)
    /\ (Properties.unique_characters (analyze value) = 0 <-> value = []).
Proof.
  intros value. unfold analyzeString. simpl.
  rewrite size_frequencyMap.
  pose proof (remove_dups_length_le (codePoints value)) as Hle.
  pose proof (codePoints_length value) as Hlen.
  split; [reflexivity|]. split; [lia|]. split.
  - intros H. apply codePoints_nil, remove_dups_nil.
    destruct (remove_dups (codePoints value)); [reflexivity|simpl in H; lia].
  - intros ->. reflexivity.
Qed.

(** X9.  [word_count] is the number of maximal runs of code units that
    are not white space: white space at either end adds nothing, a run of
    white space separates once, and the count is 0 exactly for a string of
    white space only (the empty string among them). *)
Theorem word_count_counts_runs :
  forall value : jsstring,
    Properties.word_count (analyze value) = Z.of_nat (wordRuns true value)
    /\ (Properties.word_count (analyze value) = 0
        <-> forallb isWhiteSpace value = true)
    /\ (forall lead tail,
          forallb isWhiteSpace lead = true -> forallb isWhiteSpace tail = true ->
          Properties.word_count (analyze (lead ++ value ++ tail))
          = Properties.word_count (analyze value)).
Proof.
  intros value. unfold analyzeString. simpl.
  rewrite wordCount_wordRuns. split; [reflexivity|]. split.
  - rewrite <- wordRuns_zero_iff. lia.
  - intros lead tail Hlead Htail. rewrite wordCount_wordRuns. f_equal.
    rewrite <- (wordRuns_dropWhile (lead ++ _)), <- (wordRuns_dropWhile value).
    assert (Hdrop : dropWhile isWhiteSpace (lead ++ value ++ tail)
                    = dropWhile isWhiteSpace (value ++ tail)).
    { clear -Hlead. induction lead as [|l lead IH]; simpl in *; [reflexivity|].
      apply andb_prop in Hlead as [-> Hlead]. apply IH, Hlead. }
    rewrite Hdrop, !wordRuns_dropWhile.
    apply wordRuns_app_whiteSpace, Htail.
Qed.

End AnalyzerWords.

(** * More on the filter engine and the validation of [GET /strings] *)

Lemma holdsWhenSet_true_iff {A} (o : option A) (test : A -> bool) :
  holdsWhenSet o test = true <-> forall v, o = Some v -> test v = true.
Proof.
  destruct o as [a|]; simpl.
  - split; [intros H v [= <-]; exact H|intros H; apply H; reflexivity].
  - split; [intros _ v; discriminate|reflexivity].
Qed.

(** The callback of [filter] keeps a record exactly when every filter that
    is set holds of it, the two length bounds included. *)
Lemma passesFilters_satisfies (f : Filters.t) (entry : Entry.t) :
  passesFilters f entry = true <-> satisfies f (Entry.properties entry).
Proof.
  unfold passesFilters, satisfies. cbv zeta.
  rewrite !andb_true_iff, !holdsWhenSet_true_iff.
  set (p := Entry.properties entry).
  split.
  - intros ((((Hpal & Hmin) & Hmax) & Hwc) & Hchar).
    split; [intros b Hb; apply eqb_prop, Hpal, Hb|].
    split; [intros n Hn; specialize (Hmin n Hn); lia|].
    split; [intros n Hn; specialize (Hmax n Hn); lia|].
    split; [intros n Hn; specialize (Hwc n Hn); lia|].
    intros char Hc. specialize (Hchar char Hc).
    destruct (Properties.character_frequency_map p !! char) as [n|]; [|discriminate].
    exists n. split; [reflexivity|]. intros ->. discriminate.
  - intros (Hpal & Hmin & Hmax & Hwc & Hchar).
    repeat split.
    + intros b Hb. rewrite (Hpal b Hb). apply eqb_reflx.
    + intros n Hn. specialize (Hmin n Hn). lia.
    + intros n Hn. specialize (Hmax n Hn). lia.
    + intros n Hn. specialize (Hwc n Hn). lia.
    + intros char Hc. destruct (Hchar char Hc) as (n & -> & Hn).
      destruct (Z.eqb_spec n 0); [contradiction|reflexivity].
Qed.

Lemma filter_sublist {A} (p : A -> bool) (l : list A) :
  List.filter p l `sublist_of` l.
Proof.
  induction l as [|x l IH]; simpl; [constructor|].
  destruct (p x); [apply sublist_skip|apply sublist_cons]; exact IH.
Qed.

(** X10.  With parameters that pass the validation, [GET /strings]
    answers 200, leaves the store, echoes the filters, and its data are
    exactly the stored records for which every filter that is set holds
    (same [is_palindrome], length at least [min_length] and at most
    [max_length], same [word_count], the character counted at least
    once), in the order of the store; [count] is their number. *)
Theorem getStrings_returns_matching_records :
  forall (radix : option Z) (req : Request) (st : Store) (f : Filters.t),
    validateQuery radix (query req) = inr f ->
    Forall (fun storage =>
              exists data,
                getStrings storage radix req st
                = ({| status := 200;
                      body := FilteredBody data (Z.of_nat (List.length data)) f |}, st)
                /\ data `sublist_of` (snd <$> st)
                /\ forall entry,
                     In entry data
                     <-> In entry (snd <$> st) /\ satisfies f (Entry.properties entry))
      storages.
Proof.
  intros radix req st f Hvalid. apply List.Forall_forall. intros storage Hin.
  exists (List.filter (passesFilters f) (snd <$> st)).
  unfold getStrings, bind.
  rewrite (storage_getAll_run storage st Hin), Hvalid.
  split; [reflexivity|]. split; [apply filter_sublist|].
  intros entry. rewrite filter_In, passesFilters_satisfies. reflexivity.
Qed.

(** X10 on [GET /strings?min_length=4] and the store that holds "Madam". *)
Lemma getStrings_returns_matching_records_witness :
  exists data,
    getStrings Part001.storage (Some 10)
      (stringsRequest (oneParameter "min_length" (js "4"))) madamStore
    = ({| status := 200;
          body := FilteredBody data (Z.of_nat (List.length data))
                    (Filters.set_min_length 4 Filters.empty) |}, madamStore)
    /\ data `sublist_of` (snd <$> madamStore)
    /\ forall entry,
         In entry data
         <-> In entry (snd <$> madamStore)
             /\ satisfies (Filters.set_min_length 4 Filters.empty)
                  (Entry.properties entry).
Proof.
  pose proof (getStrings_returns_matching_records (Some 10)
                (stringsRequest (oneParameter "min_length" (js "4"))) madamStore
                (Filters.set_min_length 4 Filters.empty) eq_refl) as H.
  apply List.Forall_forall with (x := Part001.storage) in H;
    [exact H | right; left; reflexivity].
Defined.

(** X11.  [GET /strings] has no check of the range: parameters that pass
    the validation with [min_length] above [max_length] are answered 200
    with no data and [count] 0, whatever the store holds. *)
Theorem getStrings_empty_range :
  forall (radix : option Z) (req : Request) (st : Store) (f : Filters.t) (lo hi : Z),
    validateQuery radix (query req) = inr f ->
    Filters.min_length f = Some lo -> Filters.max_length f = Some hi -> hi < lo ->
    Forall (fun storage =>
              getStrings storage radix req st
              = ({| status := 200; body := FilteredBody [] 0 f |}, st))
      storages.
Proof.
  intros radix req st f lo hi Hvalid Hlo Hhi Hlt.
  apply List.Forall_forall. intros storage Hin.
  unfold getStrings, bind.
  rewrite (storage_getAll_run storage st Hin), Hvalid.
  rewrite filter_none; [reflexivity|].
  intros entry. apply (passesFilters_empty_range f entry lo hi); assumption.
Qed.

(** X11 on [GET /strings?min_length=5&max_length=2]. *)
Lemma getStrings_empty_range_witness :
  getStrings StorageJs.storage None
    (stringsRequest (<["max_length"%string := js "2"]> (oneParameter "min_length" (js "5"))))
    madamStore
  = ({| status := 200;
        body := FilteredBody [] 0
                  (Filters.set_max_length 2 (Filters.set_min_length 5 Filters.empty)) |},
     madamStore).
Proof.
  assert (Hvalid : validateQuery None
                     (query (stringsRequest
                               (<["max_length"%string := js "2"]>
                                  (oneParameter "min_length" (js "5")))))
                   = inr (Filters.set_max_length 2
                            (Filters.set_min_length 5 Filters.empty)))
    by (vm_compute; reflexivity).
  pose proof (getStrings_empty_range None _ madamStore _ 5 2 Hvalid
                eq_refl eq_refl ltac:(lia)) as H.
  apply List.Forall_forall with (x := StorageJs.storage) in H;
    [exact H | left; reflexivity].
Defined.

Lemma checkInteger_inr (radix : option Z) (field : string)
    (set : Z -> Filters.t -> Filters.t) (q : gmap string (list Z))
    (f f' : Filters.t) :
  checkInteger radix field set q f = inr f' ->
  (q !! field = None /\ f' = f)
  \/ exists v n, q !! field = Some v /\ parseInt v radix = Some n /\ 0 <= n
                 /\ f' = set n f.
Proof.
  unfold checkInteger.
  destruct (q !! field) as [v|]; [|intros [= <-]; left; split; reflexivity].
  destruct (parseInt v radix) as [n|] eqn:Hn; [|discriminate].
  destruct (Z.ltb_spec n 0); [discriminate|].
  intros [= <-]. right. exists v, n.
  split; [reflexivity|]. split; [exact Hn|]. split; [assumption|reflexivity].
Qed.

(** X12.  When the validation of [GET /strings] succeeds, the filters
    hold a field exactly for each parameter that is present:
    [is_palindrome] is the boolean the text "true" or "false" names, a
    length or count is the number [parseInt] reads and is not negative,
    and [contains_character] is the parameter itself, one code unit
    long. *)
Theorem validateQuery_filters_applied :
  forall (radix : option Z) (q : gmap string (list Z)) (f : Filters.t),
    validateQuery radix q = inr f ->
    match q !! "is_palindrome"%string with
    | Some v => (v = js "true" /\ Filters.is_palindrome f = Some true)
                \/ (v = js "false" /\ Filters.is_palindrome f = Some false)
    | None => Filters.is_palindrome f = None
    end
    /\ match q !! "min_length"%string with
       | Some v => exists n, parseInt v radix = Some n /\ 0 <= n
                             /\ Filters.min_length f = Some n
       | None => Filters.min_length f = None
       end
    /\ match q !! "max_length"%string with
       | Some v => exists n, parseInt v radix = Some n /\ 0 <= n
                             /\ Filters.max_length f = Some n
       | None => Filters.max_length f = None
       end
    /\ match q !! "word_count"%string with
       | Some v => exists n, parseInt v radix = Some n /\ 0 <= n
                             /\ Filters.word_count f = Some n
       | None => Filters.word_count f = None
       end
    /\ match q !! "contains_character"%string with
       | Some v => List.length v = 1%nat /\ Filters.contains_character f = Some v
       | None => Filters.contains_character f = None
       end.
Proof.
  intros radix q f. unfold validateQuery.
  destruct (checkIsPalindrome q Filters.empty) as [e|f1] eqn:H1; [discriminate|].
  simpl andThen.
  destruct (checkInteger radix "min_length" _ q f1) as [e|f2] eqn:H2; [discriminate|].
  simpl andThen.
  destruct (checkInteger radix "max_length" _ q f2) as [e|f3] eqn:H3; [discriminate|].
  simpl andThen.
  destruct (checkInteger radix "word_count" _ q f3) as [e|f4] eqn:H4; [discriminate|].
  simpl andThen. intros H5.
  apply checkInteger_inr in H2, H3, H4.
  unfold checkIsPalindrome in H1. unfold checkContainsCharacter in H5.
  assert (Hf1 : match q !! "is_palindrome"%string with
                | Some v => (v = js "true" /\ f1 = Filters.set_is_palindrome true Filters.empty)
                            \/ (v = js "false"
                                /\ f1 = Filters.set_is_palindrome false Filters.empty)
                | None => f1 = Filters.empty
                end).
  { destruct (q !! "is_palindrome"%string) as [v|]; [|congruence].
    destruct (bool_decide (v = js "true")) eqn:Ht.
    - apply bool_decide_eq_true in Ht. left. split; congruence.
    - destruct (bool_decide (v = js "false")) eqn:Hfa; [|discriminate].
      apply bool_decide_eq_true in Hfa. right. split; congruence. }
  assert (Hf : match q !! "contains_character"%string with
               | Some v => List.length v = 1%nat /\ f = Filters.set_contains_character v f4
               | None => f = f4
               end).
  { destruct (q !! "contains_character"%string) as [v|]; [|congruence].
    destruct (bool_decide (List.length v = 1%nat)) eqn:Hl; [|discriminate].
    apply bool_decide_eq_true in Hl. split; congruence. }
  clear H1 H5.
  destruct (q !! "is_palindrome"%string) as [vp|];
    destruct (q !! "min_length"%string) as [vmin|];
    destruct (q !! "max_length"%string) as [vmax|];
    destruct (q !! "word_count"%string) as [vw|];
    destruct (q !! "contains_character"%string) as [vc|];
    repeat match goal with
      | H : _ \/ _ |- _ => destruct H
      | H : _ /\ _ |- _ => destruct H
      | H : exists _, _ |- _ => destruct H
      | H : None = Some _ |- _ => discriminate H
      | H : Some _ = None |- _ => discriminate H
      | H : Some _ = Some _ |- _ => injection H as H
      end;
    subst; simpl; repeat apply conj;
    first [ reflexivity
          | left; split; reflexivity
          | right; split; reflexivity
          | eexists; split; [eassumption|split; [assumption|reflexivity]]
          | assumption ].
Qed.

(** X12 on [GET /strings?word_count=2]. *)
Lemma validateQuery_filters_applied_witness :
  Filters.is_palindrome (Filters.set_word_count 2 Filters.empty) = None.
Proof.
  apply (validateQuery_filters_applied (Some 10) (oneParameter "word_count" (js "2"))
           (Filters.set_word_count 2 Filters.empty)).
  vm_compute. reflexivity.
Defined.

(** X13.  The parameters are checked in the order [is_palindrome],
    [min_length], ...: the first that fails is the one the 400 names,
    whatever the later ones hold.  [is_palindrome] fails unless it is
    exactly "true" or "false"; when it is absent or passes, a [min_length]
    whose [parseInt] is NaN or negative is named. *)
Theorem getStrings_names_first_invalid :
  forall (radix : option Z) (req : Request) (st : Store),
    (forall v,
        query req !! "is_palindrome"%string = Some v ->
        v <> js "true" -> v <> js "false" ->
        Forall (fun storage =>
                  getStrings storage radix req st
                  = (sendError 400
                       ("Invalid query parameter: is_palindrome must be "
                        +:+ quote +:+ "true" +:+ quote +:+ " or "
                        +:+ quote +:+ "false" +:+ quote), st))
          storages)
    /\ (forall v,
           (query req !! "is_palindrome"%string = None
            \/ query req !! "is_palindrome"%string = Some (js "true")
            \/ query req !! "is_palindrome"%string = Some (js "false")) ->
           query req !! "min_length"%string = Some v ->
           (parseInt v radix = None \/ exists n, parseInt v radix = Some n /\ n < 0) ->
           Forall (fun storage =>
                     getStrings storage radix req st
                     = (sendError 400
                          "Invalid query parameter: min_length must be a positive integer",
                        st))
             storages).
Proof.
  intros radix req st. split.
  - intros v Hv Ht Hf. apply List.Forall_forall. intros storage Hin.
    unfold getStrings, bind. rewrite (storage_getAll_run storage st Hin).
    unfold validateQuery, checkIsPalindrome. rewrite Hv.
    rewrite !bool_decide_eq_false_2 by assumption. reflexivity.
  - intros v Hpal Hv Hbad. apply List.Forall_forall. intros storage Hin.
    unfold getStrings, bind. rewrite (storage_getAll_run storage st Hin).
    assert (Hfirst : exists f1, checkIsPalindrome (query req) Filters.empty = inr f1).
    { unfold checkIsPalindrome. destruct Hpal as [-> | [-> | ->]]; eauto. }
    destruct Hfirst as [f1 Hf1]. unfold validateQuery. rewrite Hf1.
    cbv beta iota delta [andThen].
    rewrite (checkInteger_rejects radix "min_length" _ _ _ v Hv Hbad). reflexivity.
Qed.

Lemma isRadixDigit_10 (c : Z) : isRadixDigit 10 c = isDigit c.
Proof.
  unfold isRadixDigit, digitOf.
  destruct (isDigit c) eqn:Hd.
  - unfold isDigit, inRange in Hd. lia.
  - destruct (isLowerAZ c) eqn:Hl; [unfold isLowerAZ, inRange in Hl; lia|].
    destruct (isUpperAZ c) eqn:Hu; [unfold isUpperAZ, inRange in Hu; lia|].
    reflexivity.
Qed.

(** [parseInt] on white space, digits, then anything that is not a
    digit: the value of the digits. *)
Lemma parseInt_numeric_prefix (lead ds rest : jsstring) (radix : option Z) :
  radix = Some 10
  \/ (radix = None /\ forall c, head rest = Some c -> c <> 120 /\ c <> 88) ->
  forallb isWhiteSpace lead = true ->
  ds <> [] -> forallb isDigit ds = true ->
  (forall c, head rest = Some c -> isDigit c = false) ->
  parseInt (lead ++ ds ++ rest) radix = Some (digitsValue ds).
Proof.
  intros Hradix Hlead Hne Hds Hstop.
  destruct ds as [|d ds]; [congruence|]. clear Hne.
  assert (Hd : isDigit d = true) by (simpl in Hds; apply andb_prop in Hds; tauto).
  unfold parseInt.
  destruct (takeWhile_dropWhile_app isWhiteSpace lead ((d :: ds) ++ rest) Hlead)
    as [_ ->].
  { simpl. intros ? [= <-]. apply isDigit_not_whiteSpace, Hd. }
  simpl app. cbv iota.
  assert (H45 : (d =? 45) = false) by (unfold isDigit, inRange in Hd; lia).
  assert (H43 : (d =? 43) = false) by (unfold isDigit, inRange in Hd; lia).
  rewrite H45, H43.
  assert (Htake : takeWhile (isRadixDigit 10) (d :: ds ++ rest) = d :: ds).
  { change (d :: ds ++ rest) with ((d :: ds) ++ rest).
    apply takeWhile_dropWhile_app.
    - rewrite <- Hds. clear. induction (d :: ds) as [|x l IH]; simpl; [reflexivity|].
      rewrite isRadixDigit_10, IH. reflexivity.
    - intros c Hc. rewrite isRadixDigit_10. apply Hstop, Hc. }
  assert (Hval : radixValue 10 (d :: ds) = digitsValue (d :: ds)).
  { unfold radixValue, digitsValue. apply radixValue_digits, Hds. }
  destruct Hradix as [-> | [-> Hx]]; simpl default; cbv beta zeta.
  - change (10 =? 0) with false. change (10 =? 16) with false.
    change (10 <? 2) with false. change (36 <? 10) with false.
    simpl negb. simpl andb. simpl orb. cbv iota.
    destruct (ds ++ rest); rewrite Htake, Hval; f_equal; lia.
  - change (0 =? 0) with true. change (0 =? 16) with false.
    simpl negb. simpl andb. simpl orb. cbv iota.
    assert (Hnox : match ds ++ rest with
                   | x :: _ => (x =? 120) || (x =? 88) = false
                   | [] => True
                   end).
    { destruct ds as [|x ds]; simpl.
      - destruct rest as [|x rest]; [exact I|].
        destruct (Hx x eq_refl). lia.
      - simpl in Hds. apply andb_prop in Hds as [_ Hds].
        apply andb_prop in Hds as [Hxd _]. unfold isDigit, inRange in Hxd. lia. }
    destruct (ds ++ rest) as [|x t].
    + rewrite Htake, Hval. f_equal. lia.
    + rewrite Hnox, andb_false_r. rewrite Htake, Hval. f_equal. lia.
Qed.

(** X14.  The validation of a length or count takes any text that reads
    white space, then the digits of a number below 2^53, then anything
    that does not start with a digit (a fraction, letters, more white
    space): the filter gets the value of the digits and what follows them
    is ignored.  In [src/server.js], which gives [parseInt] no radix, the
    text after the digits must not start with "x" or "X". *)
Theorem checkInteger_takes_numeric_prefix :
  forall (radix : option Z) (field : string) (set : Z -> Filters.t -> Filters.t)
         (q : gmap string (list Z)) (f : Filters.t) (lead ds rest : jsstring),
    radix = Some 10
    \/ (radix = None /\ forall c, head rest = Some c -> c <> 120 /\ c <> 88) ->
    q !! field = Some (lead ++ ds ++ rest) ->
    forallb isWhiteSpace lead = true ->
    ds <> [] -> forallb isDigit ds = true ->
    safeInteger (digitsValue ds) ->
    (forall c, head rest = Some c -> isDigit c = false) ->
    checkInteger radix field set q f = inr (set (digitsValue ds) f).
Proof.
  intros radix field set q f lead ds rest Hradix Hq Hlead Hne Hds _ Hstop.
  apply (checkInteger_accepts radix field set q f (lead ++ ds ++ rest));
    [exact Hq|apply parseInt_numeric_prefix; assumption|].
  clear -Hds. unfold digitsValue.
  enough (H : forall acc, 0 <= acc ->
                0 <= fold_left (fun acc d => 10 * acc + (d - 48)) ds acc)
    by (apply H; lia).
  induction ds as [|d ds IH]; intros acc Hacc; simpl; [exact Hacc|].
  simpl in Hds. apply andb_prop in Hds as [Hd Hds].
  apply IH; [exact Hds|]. unfold isDigit, inRange in Hd. lia.
Qed.

(** X14 on [max_length= 12.5e3]. *)
Lemma checkInteger_takes_numeric_prefix_witness :
  checkInteger (Some 10) "max_length" Filters.set_max_length
    (oneParameter "max_length" (js " " ++ js "12" ++ js ".5e3")) Filters.empty
  = inr (Filters.set_max_length (digitsValue (js "12")) Filters.empty).
Proof.
  apply (checkInteger_takes_numeric_prefix (Some 10) "max_length" Filters.set_max_length
           (oneParameter "max_length" (js " " ++ js "12" ++ js ".5e3")) Filters.empty
           (js " ") (js "12") (js ".5e3")).
  - left. reflexivity.
  - reflexivity.
  - reflexivity.
  - discriminate.
  - reflexivity.
  - unfold safeInteger. vm_compute. reflexivity.
  - intros c [= <-]. reflexivity.
Defined.






(** * More on the natural-language parser *)

Lemma ServerJs_parseFilters_is_palindrome (lq : jsstring) :
  Filters.is_palindrome (ServerJs.parseFilters lq)
  = if includes lq (js "palindrome") || includes lq (js "palindromic")
    then Some true else None.
Proof. unfold ServerJs.parseFilters. cbv zeta. split_rules. Qed.

(** X16.  Rule 1, the same in both revisions: [is_palindrome] is set, to
    true, exactly when the lower-cased query contains "palindrome" or
    "palindromic"; no query makes the parser ask for strings that are not
    palindromes. *)
Theorem parseFilters_is_palindrome_rule :
  forall lowerQuery : jsstring,
    Filters.is_palindrome (ServerJs.parseFilters lowerQuery)
    = Filters.is_palindrome (Part002.parseFilters lowerQuery)
    /\ (Filters.is_palindrome (Part002.parseFilters lowerQuery) = Some true
        <-> exists pre post,
              lowerQuery = pre ++ js "palindrome" ++ post
              \/ lowerQuery = pre ++ js "palindromic" ++ post)
    /\ Filters.is_palindrome (Part002.parseFilters lowerQuery) <> Some false.
Proof.
  intros lq.
  rewrite ServerJs_parseFilters_is_palindrome, Part002_parseFilters_is_palindrome.
  split; [reflexivity|]. split.
  - destruct (includes lq (js "palindrome")) eqn:H1;
      destruct (includes lq (js "palindromic")) eqn:H2;
      cbv beta iota delta [orb].
    1-3: split; [intros _|reflexivity].
    + apply includes_true_iff in H1 as (pre & post & ->). eauto.
    + apply includes_true_iff in H1 as (pre & post & ->). eauto.
    + apply includes_true_iff in H2 as (pre & post & ->). eauto.
    + split; [discriminate|]. intros (pre & post & [-> | ->]).
      * assert (Hin : includes (pre ++ js "palindrome" ++ post) (js "palindrome") = true)
          by (apply includes_true_iff; eauto).
        congruence.
      * assert (Hin : includes (pre ++ js "palindromic" ++ post) (js "palindromic") = true)
          by (apply includes_true_iff; eauto).
        congruence.
  - destruct (includes lq (js "palindrome") || includes lq (js "palindromic"));
      discriminate.
Qed.

(** X17.  Rule 3, the same in both revisions: where the lower-cased query
    reads "longer than", white space, the digits of a number N below 2^53,
    and no earlier position matches the rule, [min_length] is N + 1. *)
Theorem longer_than_sets_min_length :
  forall pre ws ds rest : jsstring,
    let lq := pre ++ js "longer than" ++ ws ++ ds ++ rest in
    ws <> [] -> forallb isWhiteSpace ws = true ->
    ds <> [] -> forallb isDigit ds = true ->
    safeInteger (digitsValue ds) ->
    (forall c, head rest = Some c -> isDigit c = false) ->
    (forall i, (i < List.length pre)%nat ->
               wordThenNumber (js "longer than") (drop i lq) = None) ->
    Filters.min_length (ServerJs.parseFilters lq) = Some (digitsValue ds + 1)
    /\ Filters.min_length (Part002.parseFilters lq) = Some (digitsValue ds + 1).
Proof.
  intros pre ws ds rest lq Hws Hspace Hds Hdigits _ Hstop Hleft. subst lq.
  rewrite ServerJs_parseFilters_min_length, Part002_parseFilters_min_length.
  rewrite regexSearch_wordThenNumber by assumption. auto.
Qed.

(** X17 on "strings longer than 10 characters". *)
Lemma longer_than_sets_min_length_witness :
  Filters.min_length (ServerJs.parseFilters
                        (js "strings " ++ js "longer than" ++ js " " ++ js "10"
                         ++ js " characters"))
  = Some (digitsValue (js "10") + 1).
Proof.
  apply (longer_than_sets_min_length (js "strings ") (js " ") (js "10")
           (js " characters")); try reflexivity; try discriminate.
  - intros c [= <-]. reflexivity.
  - intros i Hi. simpl in Hi.
    do 8 (destruct i as [|i]; [vm_compute; reflexivity|]). lia.
Defined.

Lemma digitsValue_nonneg (ds : jsstring) :
  forallb isDigit ds = true -> 0 <= digitsValue ds.
Proof.
  unfold digitsValue.
  enough (H : forall acc, 0 <= acc -> forallb isDigit ds = true ->
                0 <= fold_left (fun acc d => 10 * acc + (d - 48)) ds acc)
    by (apply H; lia).
  induction ds as [|d ds IH]; intros acc Hacc Hds; simpl; [exact Hacc|].
  simpl in Hds. apply andb_prop in Hds as [Hd Hds].
  apply IH; [|exact Hds]. unfold isDigit, inRange in Hd. lia.
Qed.

Lemma regexSearch_number_nonneg (word lq ds : jsstring) :
  regexSearch (wordThenNumber word) lq = Some ds -> 0 <= digitsValue ds.
Proof.
  intros (pre & rest & _ & Hhere)%regexSearch_Some.
  apply wordThenNumber_digits in Hhere as [_ Hds].
  apply digitsValue_nonneg, Hds.
Qed.

(** X19.  What the parser of [part_002] can yield: [is_palindrome] only
    true, [word_count] only 1, [min_length] at least 1, [max_length] at
    least -1 (it is -1 for "shorter than 0"), and [contains_character]
    one code unit among [a-z0-9]. *)
Theorem Part002_parsed_values_bounds :
  forall lowerQuery : jsstring,
    let f := Part002.parseFilters lowerQuery in
    (Filters.is_palindrome f = None \/ Filters.is_palindrome f = Some true)
    /\ (Filters.word_count f = None \/ Filters.word_count f = Some 1)
    /\ match Filters.min_length f with Some n => 1 <= n | None => True end
    /\ match Filters.max_length f with Some n => -1 <= n | None => True end
    /\ match Filters.contains_character f with
       | Some char => exists c, char = [c] /\ isLowerAlnum c = true
       | None => True
       end
    /\ Filters.max_length (Part002.parseFilters (js "shorter than 0")) = Some (-1).
Proof.
  intros lq f. subst f.
  rewrite Part002_parseFilters_is_palindrome, Part002_parseFilters_word_count,
    Part002_parseFilters_min_length, Part002_parseFilters_max_length,
    Part002_parseFilters_contains_character.
  split; [destruct (_ || _); auto|].
  split; [destruct (_ || _); auto|].
  split.
  { destruct (regexSearch (wordThenNumber (js "longer than")) lq) as [ds|] eqn:H;
      [|exact I].
    apply regexSearch_number_nonneg in H. lia. }
  split.
  { destruct (regexSearch (wordThenNumber (js "shorter than")) lq) as [ds|] eqn:H;
      [|exact I].
    apply regexSearch_number_nonneg in H. lia. }
  split; [|vm_compute; reflexivity].
  destruct (includes lq (js "first vowel")); [exists 97; split; reflexivity|].
  destruct (regexSearch (containsOrLetter isLowerAlnum) lq) as [r|] eqn:H; [|exact I].
  apply regexSearch_Some in H as (pre & rest & _ & Hhere).
  apply containsOrLetter_Some in Hhere. exact Hhere.
Qed.

(** X20.  Rule 6 comes last and overwrites rule 5: a lower-cased query
    that contains "first vowel" gets [contains_character = "a"], in both
    revisions, whatever "contains" or "letter" it also holds. *)
Theorem first_vowel_overrides :
  forall pre post : jsstring,
    Filters.contains_character
      (ServerJs.parseFilters (pre ++ js "first vowel" ++ post)) = Some (js "a")
    /\ Filters.contains_character
         (Part002.parseFilters (pre ++ js "first vowel" ++ post)) = Some (js "a").
Proof.
  intros pre post.
  rewrite ServerJs_parseFilters_contains_character,
    Part002_parseFilters_contains_character.
  assert (H : includes (pre ++ js "first vowel" ++ post) (js "first vowel") = true)
    by (apply includes_true_iff; eauto).
  rewrite H. auto.
Qed.

Lemma wordThenNumber_includes (word lq : jsstring) :
  includes lq word = false -> regexSearch (wordThenNumber word) lq = None.
Proof.
  intros Hnot. apply regexSearch_None. intros pre rest ->.
  unfold wordThenNumber.
  destruct (stripPrefix word rest) as [r|] eqn:Hp; [|reflexivity].
  apply stripPrefix_Some in Hp. subst rest.
  assert (Hin : includes (pre ++ word ++ r) word = true)
    by (apply includes_true_iff; eauto).
  congruence.
Qed.

Lemma containsOrLetter_includes (class : Z -> bool) (lq : jsstring) :
  includes lq (js "contains") = false -> includes lq (js "letter") = false ->
  regexSearch (containsOrLetter class) lq = None.
Proof.
  intros Hc Hl. apply regexSearch_None. intros pre rest ->.
  unfold containsOrLetter.
  destruct (stripPrefix (js "contains") rest) as [r|] eqn:Hp.
  { apply stripPrefix_Some in Hp. subst rest.
    assert (Hin : includes (pre ++ js "contains" ++ r) (js "contains") = true)
      by (apply includes_true_iff; eauto).
    congruence. }
  destruct (stripPrefix (js "letter") rest) as [r|] eqn:Hp'; [|reflexivity].
  apply stripPrefix_Some in Hp'. subst rest.
  assert (Hin : includes (pre ++ js "letter" ++ r) (js "letter") = true)
    by (apply includes_true_iff; eauto).
  congruence.
Qed.

Lemma ServerJs_filterByNaturalLanguage_run (toLowerCase : jsstring -> jsstring)
    (storage : Storage.api) (others : gmap string (list Z)) (q : jsstring) :
  q <> [] ->
  ServerJs.filterByNaturalLanguage toLowerCase storage (naturalLanguageRequest others q)
  = if ServerJs.conflicting (ServerJs.parseFilters (toLowerCase q))
    then ret (sendError 422 "Query parsed but resulted in conflicting length filters")
    else respondInterpreted storage q (ServerJs.parseFilters (toLowerCase q)).
Proof.
  intros Hq. unfold ServerJs.filterByNaturalLanguage.
  change (query (naturalLanguageRequest others q))
    with (<["query"%string := q]> others).
  rewrite lookup_insert_eq. destruct q as [|c q]; [congruence|reflexivity].
Qed.

Lemma filter_all {A} (p : A -> bool) (l : list A) :
  (forall x, p x = true) -> List.filter p l = l.
Proof.
  intros Hp. induction l as [|x l IH]; simpl; [reflexivity|].
  rewrite Hp, IH. reflexivity.
Qed.

(** X21.  A query in which no rule finds its words (none of "palindrome",
    "palindromic", "single word", "one word", "longer than",
    "shorter than", "contains", "letter", "first vowel" occurs in its
    lower-casing) is parsed to no filter at all, and the handler of either
    revision answers 200 with every stored record. *)
Theorem query_without_rule_word_returns_all :
  forall (toLowerCase : jsstring -> jsstring) (others : gmap string (list Z))
         (q : jsstring) (st : Store),
    q <> [] ->
    Forall (fun word => includes (toLowerCase q) word = false)
      [js "palindrome"; js "palindromic"; js "single word"; js "one word";
       js "longer than"; js "shorter than"; js "contains"; js "letter";
       js "first vowel"] ->
    ServerJs.parseFilters (toLowerCase q) = Filters.empty
    /\ Part002.parseFilters (toLowerCase q) = Filters.empty
    /\ Forall (fun storage =>
                 let all := {| status := 200;
                               body := InterpretedBody (snd <$> st)
                                         (Z.of_nat (List.length (snd <$> st)))
                                         q Filters.empty |} in
                 ServerJs.filterByNaturalLanguage toLowerCase storage
                   (naturalLanguageRequest others q) st = (all, st)
                 /\ Part002.filterByNaturalLanguage toLowerCase storage
                      (naturalLanguageRequest others q) st = (all, st))
         storages.
Proof.
  intros toLowerCase others q st Hq Hwords.
  repeat match goal with
         | H : Forall _ (_ :: _) |- _ => apply Forall_cons in H as [? H]
         end.
  assert (Hserver : ServerJs.parseFilters (toLowerCase q) = Filters.empty).
  { unfold ServerJs.parseFilters.
    rewrite (wordThenNumber_includes (js "longer than")) by assumption.
    rewrite (containsOrLetter_includes isLowerAZ) by assumption.
    repeat match goal with H : includes _ _ = false |- _ => rewrite H; clear H end.
    reflexivity. }
  assert (Hpart : Part002.parseFilters (toLowerCase q) = Filters.empty).
  { unfold Part002.parseFilters.
    rewrite (wordThenNumber_includes (js "longer than")) by assumption.
    rewrite (wordThenNumber_includes (js "shorter than")) by assumption.
    rewrite (containsOrLetter_includes isLowerAlnum) by assumption.
    repeat match goal with H : includes _ _ = false |- _ => rewrite H; clear H end.
    reflexivity. }
  split; [exact Hserver|]. split; [exact Hpart|].
  apply List.Forall_forall. intros storage Hin. cbv zeta.
  rewrite ServerJs_filterByNaturalLanguage_run, Part002_filterByNaturalLanguage_run
    by exact Hq.
  rewrite Hserver, Hpart.
  change (ServerJs.conflicting Filters.empty) with false.
  change (Part002.conflicting Filters.empty) with false. cbv iota.
  unfold respondInterpreted, bind. rewrite (storage_getAll_run storage st Hin).
  rewrite filter_all by reflexivity. auto.
Qed.

(** X21 on the query "all strings". *)
Lemma query_without_rule_word_returns_all_witness :
  Part002.parseFilters (asciiToLowerCase (js "all strings")) = Filters.empty.
Proof.
  apply (query_without_rule_word_returns_all asciiToLowerCase ∅ (js "all strings") []);
    [discriminate|].
  repeat constructor.
Defined.

Lemma Part002_min_length_positive (lq : jsstring) (lo : Z) :
  Filters.min_length (Part002.parseFilters lq) = Some lo -> 1 <= lo.
Proof.
  rewrite Part002_parseFilters_min_length.
  destruct (regexSearch (wordThenNumber (js "longer than")) lq) as [ds|] eqn:H;
    [|discriminate].
  apply regexSearch_number_nonneg in H. intros [= <-]. lia.
Qed.

(** X22.  The handler of [part_002] answers 422 exactly when both bounds
    were parsed, the lower one is above the upper one and the upper one is
    not 0; in every other case a non-empty query is answered 200. *)
Theorem Part002_rejects_iff :
  forall (toLowerCase : jsstring -> jsstring) (storage : Storage.api)
         (others : gmap string (list Z)) (q : jsstring) (st : Store),
    q <> [] ->
    let f := Part002.parseFilters (toLowerCase q) in
    let r := fst (Part002.filterByNaturalLanguage toLowerCase storage
                    (naturalLanguageRequest others q) st) in
    (status r = 422 \/ status r = 200)
    /\ (status r = 422
        <-> exists lo hi,
              Filters.min_length f = Some lo /\ Filters.max_length f = Some hi
              /\ hi < lo /\ hi <> 0).
Proof.
  intros toLowerCase storage others q st Hq f r. subst r.
  rewrite Part002_filterByNaturalLanguage_run by exact Hq. fold f.
  pose proof (Part002_conflicting_iff f) as Hiff.
  pose proof (Part002_min_length_positive (toLowerCase q)) as Hmin. fold f in Hmin.
  destruct (Part002.conflicting f).
  - simpl. split; [auto|]. split; [intros _|reflexivity].
    destruct Hiff as [Hiff _]. destruct (Hiff eq_refl) as (lo & hi & ? & ? & ? & ? & ?).
    exists lo, hi. auto.
  - assert (Hok : status (fst (respondInterpreted storage q f st)) = 200).
    { unfold respondInterpreted, bind.
      destruct (Storage.getAll storage st). reflexivity. }
    rewrite Hok. split; [auto|]. split; [discriminate|].
    intros (lo & hi & Hlo & Hhi & Hlt & Hnz). exfalso.
    specialize (Hmin lo Hlo).
    assert (Hc : false = true); [|discriminate].
    apply Hiff. exists lo, hi. repeat split; try assumption; lia.
Qed.

(** X22 on the query "strings". *)
Lemma Part002_rejects_iff_witness :
  status (fst (Part002.filterByNaturalLanguage asciiToLowerCase Part001.storage
                 (naturalLanguageRequest ∅ (js "strings")) [])) = 422
  \/ status (fst (Part002.filterByNaturalLanguage asciiToLowerCase Part001.storage
                    (naturalLanguageRequest ∅ (js "strings")) [])) = 200.
Proof.
  apply (Part002_rejects_iff asciiToLowerCase Part001.storage ∅ (js "strings") []).
  discriminate.
Defined.

(** X23.  The handler of [src/server.js] never answers 422: its conflict
    check needs [max_length], which no rule of that revision sets.  It
    answers 400 when the query is missing or empty and 200 otherwise. *)
Theorem ServerJs_never_rejects :
  forall (toLowerCase : jsstring -> jsstring) (storage : Storage.api)
         (req : Request) (st : Store),
    let r := fst (ServerJs.filterByNaturalLanguage toLowerCase storage req st) in
    status r <> 422
    /\ (status r = 400
        <-> query req !! "query"%string = None \/ query req !! "query"%string = Some [])
    /\ (status r = 200
        <-> exists q, q <> [] /\ query req !! "query"%string = Some q).
Proof.
  intros toLowerCase storage req st r. subst r.
  unfold ServerJs.filterByNaturalLanguage.
  destruct (query req !! "query"%string) as [[|c q]|] eqn:Hq.
  - simpl. split; [discriminate|]. split; [split; auto|].
    split; [discriminate|]. intros (q & Hne & [= <-]). congruence.
  - rewrite ServerJs_never_conflicting.
    assert (Hok : forall f, status (fst (respondInterpreted storage (c :: q) f st)) = 200).
    { intros f. unfold respondInterpreted, bind.
      destruct (Storage.getAll storage st). reflexivity. }
    rewrite Hok. split; [discriminate|]. split.
    + split; [discriminate|]. intros [H | H]; discriminate.
    + split; [intros _; exists (c :: q); split; [discriminate|reflexivity]|reflexivity].
  - simpl. split; [discriminate|]. split; [split; auto|].
    split; [discriminate|]. intros (q & _ & [=]).
Qed.

(** * More on the handlers and the routes *)

Lemma storeDelete_snoc_fresh (st : Store) (id : jsstring) (entry : Entry.t) :
  storeGet st id = None -> storeDelete (st ++ [(id, entry)]) id = st.
Proof.
  intros Hfree. unfold storeDelete. rewrite filter_app.
  fold (storeDelete st id). rewrite (storeDelete_missing st id Hfree).
  rewrite filter_cons_False by (simpl; intros H; apply H; reflexivity).
  rewrite filter_nil. apply app_nil_r.
Qed.

Section MoreHandlers.

Variable toLowerCase : jsstring -> jsstring.
Variable sha256_hex : jsstring -> jsstring.

Local Abbreviation analyze := (analyzeString toLowerCase sha256_hex).

(** The record [POST /strings] writes for a value. *)
Local Abbreviation posted value now :=
  (newEntry (sha256_hex value)
     {| data_value := value; data_properties := analyze value |} now).

Lemma postStrings_run (storage : Storage.api) (value now : jsstring) (st : Store) :
  In storage storages -> sha256_hex value <> [] ->
  postStrings toLowerCase sha256_hex storage (postRequest value) now st
  = match storeGet st (sha256_hex value) with
    | Some _ => (sendError 409 "String already exists in the system", st)
    | None => ({| status := 201; body := EntryBody (posted value now) |},
               st ++ [(sha256_hex value, posted value now)])
    end.
Proof.
  intros Hin Hid. unfold postStrings.
  change (body_value (postRequest value)) with (ValueString value).
  unfold bind. cbv beta iota zeta.
  change (Properties.sha256_hash (analyze value)) with (sha256_hex value).
  destruct (storeGet st (sha256_hex value)) as [e|] eqn:Hget.
  - destruct (In_storages storage Hin) as [-> | ->]; simpl Storage.create.
    + rewrite (StorageJs_create_present st _ e _ now Hget). reflexivity.
    + rewrite (Part001_create_present st _ e _ now Hget). reflexivity.
  - rewrite (storage_create_fresh storage st _ _ now Hin Hget Hid). reflexivity.
Qed.

(** X24.  [POST /strings] with a string value whose digest is not held
    answers 201 with the new record (id the digest, the value as sent, the
    properties of the value, the time of the call) and appends it to the
    store; when the digest is held it answers 409 and leaves the store.  A
    body without [value] is answered 400 and a [value] that is not a
    string 422, the store left as it was. *)
Theorem postStrings_creates_or_conflicts :
  forall (value now : jsstring) (st : Store),
    sha256_hex value <> [] ->
    Forall (fun storage =>
              postStrings toLowerCase sha256_hex storage (postRequest value) now st
              = match storeGet st (sha256_hex value) with
                | Some _ => (sendError 409 "String already exists in the system", st)
                | None => ({| status := 201; body := EntryBody (posted value now) |},
                           st ++ [(sha256_hex value, posted value now)])
                end
              /\ forall req,
                   (body_value req = ValueUndefined ->
                    postStrings toLowerCase sha256_hex storage req now st
                    = (sendError 400
                         ("Missing " +:+ quote +:+ "value" +:+ quote
                          +:+ " field in request body"), st))
                   /\ (body_value req = ValueOther ->
                       postStrings toLowerCase sha256_hex storage req now st
                       = (sendError 422
                            ("Invalid data type for " +:+ quote +:+ "value" +:+ quote
                             +:+ " (must be string)"), st)))
      storages.
Proof.
  intros value now st Hid. apply List.Forall_forall. intros storage Hin.
  split; [apply postStrings_run; assumption|].
  intros req. unfold postStrings. split; intros ->; reflexivity.
Qed.

Lemma dispatch_getString_ServerJs (v : jsstring) :
  v <> [] ->
  dispatch ServerJs.routes (getStringRequest v)
  = Some (GetString, [("stringValue"%string, v)]).
Proof. intros Hv. destruct v as [|c v]; [congruence|reflexivity]. Qed.

Lemma dispatch_getString_Part002 (v : jsstring) :
  v <> [] ->
  dispatch Part002.routes (getStringRequest v)
  = if bool_decide (asciiLower <$> v = asciiLower <$> js "filter-by-natural-language")
    then Some (FilterByNaturalLanguage, [])
    else Some (GetString, [("stringValue"%string, v)]).
Proof.
  intros Hv. unfold dispatch, Part002.routes, getStringRequest.
  simpl methodEq. cbv iota. simpl path.
  change (matchSegments [Lit "strings"; Lit "filter-by-natural-language"]
            [js "strings"; v])
    with (if bool_decide (asciiLower <$> v
                          = asciiLower <$> js "filter-by-natural-language")
          then Some (@nil (string * list Z)) else None).
  destruct (bool_decide _); [reflexivity|].
  destruct v as [|c v]; [congruence|reflexivity].
Qed.

Lemma dispatch_deleteString (v : jsstring) :
  v <> [] ->
  dispatch ServerJs.routes (deleteStringRequest v)
  = Some (DeleteString, [("stringValue"%string, v)])
  /\ dispatch Part002.routes (deleteStringRequest v)
     = Some (DeleteString, [("stringValue"%string, v)]).
Proof. intros Hv. destruct v as [|c v]; [congruence|]. split; reflexivity. Qed.

End MoreHandlers.

(** X24 on "Madam" and the empty store. *)
Lemma postStrings_creates_or_conflicts_witness :
  postStrings asciiToLowerCase plainDigest Part001.storage (postRequest (js "Madam"))
    (js "t") []
  = ({| status := 201;
        body := EntryBody
                  (newEntry (plainDigest (js "Madam"))
                     {| data_value := js "Madam";
                        data_properties :=
                          analyzeString asciiToLowerCase plainDigest (js "Madam") |}
                     (js "t")) |},
     [] ++ [(plainDigest (js "Madam"),
             newEntry (plainDigest (js "Madam"))
               {| data_value := js "Madam";
                  data_properties :=
                    analyzeString asciiToLowerCase plainDigest (js "Madam") |}
               (js "t"))]).
Proof.
  pose proof (postStrings_creates_or_conflicts asciiToLowerCase plainDigest
                (js "Madam") (js "t") [] ltac:(discriminate)) as H.
  apply List.Forall_forall with (x := Part001.storage) in H;
    [apply H | right; left; reflexivity].
Defined.

(** X26.  Where [GET /strings/<v>] goes, [v] being the decoded segment.
    In [src/server.js] every non-empty [v] is given to the handler of a
    single string, with [v] as [stringValue].  In [part_002] the same holds
    for every non-empty [v] other than "filter-by-natural-language" in any
    letter case.  [DELETE /strings/<v>] reaches the delete handler in both,
    for every non-empty [v]. *)
Theorem routes_of_single_string :
  forall v : jsstring,
    v <> [] ->
    dispatch ServerJs.routes (getStringRequest v)
    = Some (GetString, [("stringValue"%string, v)])
    /\ (asciiLower <$> v <> asciiLower <$> js "filter-by-natural-language" ->
        dispatch Part002.routes (getStringRequest v)
        = Some (GetString, [("stringValue"%string, v)]))
    /\ dispatch ServerJs.routes (deleteStringRequest v)
       = Some (DeleteString, [("stringValue"%string, v)])
    /\ dispatch Part002.routes (deleteStringRequest v)
       = Some (DeleteString, [("stringValue"%string, v)]).
Proof.
  intros v Hv.
  split; [apply dispatch_getString_ServerJs, Hv|].
  split; [|apply dispatch_deleteString, Hv].
  intros Hother. rewrite dispatch_getString_Part002 by exact Hv.
  rewrite bool_decide_eq_false_2 by exact Hother. reflexivity.
Qed.

(** X26 on [GET /strings/Madam] and [DELETE /strings/Madam]. *)
Lemma routes_of_single_string_witness :
  dispatch ServerJs.routes (getStringRequest (js "Madam"))
  = Some (GetString, [("stringValue"%string, js "Madam")])
  /\ (asciiLower <$> js "Madam" <> asciiLower <$> js "filter-by-natural-language" ->
      dispatch Part002.routes (getStringRequest (js "Madam"))
      = Some (GetString, [("stringValue"%string, js "Madam")]))
  /\ dispatch ServerJs.routes (deleteStringRequest (js "Madam"))
     = Some (DeleteString, [("stringValue"%string, js "Madam")])
  /\ dispatch Part002.routes (deleteStringRequest (js "Madam"))
     = Some (DeleteString, [("stringValue"%string, js "Madam")]).
Proof.
  apply (routes_of_single_string (js "Madam")).
  discriminate.
Defined.

Lemma applications_run (toLowerCase sha256_hex : jsstring -> jsstring)
    (app : Request -> jsstring -> M Response) :
  In app (applications toLowerCase sha256_hex) ->
  exists storage routes radix nl,
    In storage storages
    /\ (routes = ServerJs.routes \/ routes = Part002.routes)
    /\ (forall req, readOnly (nl req))
    /\ app = serve toLowerCase sha256_hex storage routes radix nl.
Proof.
  intros [<- | [<- | [<- | [<- | []]]]].
  - exists StorageJs.storage, ServerJs.routes, None,
      (ServerJs.filterByNaturalLanguage toLowerCase StorageJs.storage).
    split; [left; reflexivity|]. split; [auto|]. split; [|reflexivity].
    intros req. apply ServerJs_filterByNaturalLanguage_readOnly. auto.
  - exists Part001.storage, ServerJs.routes, None,
      (ServerJs.filterByNaturalLanguage toLowerCase Part001.storage).
    split; [right; left; reflexivity|]. split; [auto|]. split; [|reflexivity].
    intros req. apply ServerJs_filterByNaturalLanguage_readOnly. auto.
  - exists StorageJs.storage, Part002.routes, (Some 10),
      (Part002.filterByNaturalLanguage toLowerCase StorageJs.storage).
    split; [left; reflexivity|]. split; [auto|]. split; [|reflexivity].
    intros req. apply Part002_filterByNaturalLanguage_readOnly. auto.
  - exists Part001.storage, Part002.routes, (Some 10),
      (Part002.filterByNaturalLanguage toLowerCase Part001.storage).
    split; [right; left; reflexivity|]. split; [auto|]. split; [|reflexivity].
    intros req. apply Part002_filterByNaturalLanguage_readOnly. auto.
Qed.

(** What one request can do to the store: nothing, append the record of
    the posted value, or delete one id. *)
Lemma serve_store_cases (toLowerCase sha256_hex : jsstring -> jsstring)
    (storage : Storage.api) (routes : list (Method * list Segment * Handler))
    (radix : option Z) (nl : Request -> M Response)
    (req : Request) (now : jsstring) (st : Store) :
  In storage storages -> (forall req, readOnly (nl req)) ->
  let st' := snd (serve toLowerCase sha256_hex storage routes radix nl req now st) in
  st' = st
  \/ (exists value,
        storeGet st (sha256_hex value) = None
        /\ st' = st ++ [(sha256_hex value,
                         newEntry (sha256_hex value)
                           {| data_value := value;
                              data_properties :=
                                analyzeString toLowerCase sha256_hex value |} now)])
  \/ exists id, st' = storeDelete st id.
Proof.
  intros Hin Hnl. cbv zeta. unfold serve.
  destruct (dispatch routes req) as [[[] params]|].
  - unfold postStrings. destruct (body_value req) as [|value|]; [left; reflexivity| |left; reflexivity].
    unfold bind. cbv beta iota zeta.
    destruct (storage_create_cases storage st
                (Properties.sha256_hash (analyzeString toLowerCase sha256_hex value))
                {| data_value := value;
                   data_properties := analyzeString toLowerCase sha256_hex value |}
                now Hin) as [Hsame | [Hfree Hnew]].
    + left. destruct (Storage.create storage _ _ now st) as [[e|] st1]; exact Hsame.
    + right. left. exists value. split; [exact Hfree|].
      destruct (Storage.create storage _ _ now st) as [[e|] st1]; exact Hnew.
  - left. apply getString_readOnly, In_storages, Hin.
  - left. apply getStrings_readOnly, In_storages, Hin.
  - left. apply Hnl.
  - unfold deleteString, bind. cbv beta iota zeta.
    rewrite (storage_deleteById_run storage st _ Hin).
    destruct (storeGet st _); [right; right; eauto|left; reflexivity].
  - left. reflexivity.
Qed.

Lemma contentAddressed_storeDelete (toLowerCase sha256_hex : jsstring -> jsstring)
    (st : Store) (id : jsstring) :
  contentAddressed toLowerCase sha256_hex st ->
  contentAddressed toLowerCase sha256_hex (storeDelete st id).
Proof.
  unfold contentAddressed, storeDelete. rewrite !Forall_forall.
  intros H kv Hkv. apply list_elem_of_filter in Hkv as [_ Hkv]. apply H, Hkv.
Qed.

(** X28.  Whatever request a server of either revision handles, the store
    keeps its shape and stays content-addressed: each key stands once,
    and the record under a key has that key as id, the digest of its value
    as key, and the properties of its value. *)
Theorem requests_keep_store_content_addressed :
  forall (toLowerCase sha256_hex : jsstring -> jsstring)
         (app : Request -> jsstring -> M Response)
         (req : Request) (now : jsstring) (st : Store),
    In app (applications toLowerCase sha256_hex) ->
    wellFormed st -> contentAddressed toLowerCase sha256_hex st ->
    wellFormed (snd (app req now st))
    /\ contentAddressed toLowerCase sha256_hex (snd (app req now st)).
Proof.
  intros toLowerCase sha256_hex app req now st Happ Hwf Hca.
  destruct (applications_run toLowerCase sha256_hex app Happ)
    as (storage & routes & radix & nl & Hin & _ & Hnl & ->).
  destruct (serve_store_cases toLowerCase sha256_hex storage routes radix nl
              req now st Hin Hnl) as [-> | [(value & Hfree & ->) | (id & ->)]].
  - auto.
  - split.
    + apply wellFormed_snoc; [exact Hwf|exact Hfree|reflexivity].
    + apply Forall_app. split; [exact Hca|]. repeat constructor.
  - split; [apply wellFormed_storeDelete, Hwf|apply contentAddressed_storeDelete, Hca].
Qed.

(** X28 on a [DELETE] sent to the store that holds "Madam". *)
Lemma requests_keep_store_content_addressed_witness :
  wellFormed (snd (Part002.app asciiToLowerCase plainDigest Part001.storage
                     (deleteStringRequest (js "Madam")) [] madamStore)).
Proof.
  apply (requests_keep_store_content_addressed asciiToLowerCase plainDigest
           (Part002.app asciiToLowerCase plainDigest Part001.storage)
           (deleteStringRequest (js "Madam")) [] madamStore).
  - right. right. right. left. reflexivity.
  - split; [apply NoDup_singleton|repeat constructor].
  - repeat constructor.
Defined.

(** X27 on [GET /strings] sent to [part_002] with the store that holds
    "Madam". *)
Lemma get_requests_readOnly_witness :
  snd (Part002.app asciiToLowerCase plainDigest Part001.storage
         (stringsRequest ∅) [] madamStore) = madamStore.
Proof.
  refine (get_requests_readOnly asciiToLowerCase plainDigest
            (Part002.app asciiToLowerCase plainDigest Part001.storage)
            (stringsRequest ∅) [] _ _ madamStore).
  - right. right. right. left. reflexivity.
  - reflexivity.
Defined.

(** X25.  The life of a string, in every pairing of server and store.
    For a value that is a non-empty path segment other than
    "filter-by-natural-language" and whose digest (not empty) is not held:
    [POST /strings] answers 201 with the record; [GET /strings/<value>]
    then answers 200 with that same record; [DELETE /strings/<value>]
    answers 204 and leaves the store as it was before the POST; after
    that both GET and DELETE answer 404. *)
Theorem post_get_delete_scenario :
  forall (toLowerCase sha256_hex : jsstring -> jsstring)
         (app : Request -> jsstring -> M Response)
         (value now t2 t3 t4 t5 : jsstring) (st : Store),
    In app (applications toLowerCase sha256_hex) ->
    value <> [] ->
    asciiLower <$> value <> asciiLower <$> js "filter-by-natural-language" ->
    sha256_hex value <> [] ->
    storeGet st (sha256_hex value) = None ->
    let entry := newEntry (sha256_hex value)
                   {| data_value := value;
                      data_properties := analyzeString toLowerCase sha256_hex value |}
                   now in
    let st1 := st ++ [(sha256_hex value, entry)] in
    app (postRequest value) now st = ({| status := 201; body := EntryBody entry |}, st1)
    /\ app (getStringRequest value) t2 st1
       = ({| status := 200; body := EntryBody entry |}, st1)
    /\ app (deleteStringRequest value) t3 st1 = ({| status := 204; body := NoBody |}, st)
    /\ app (getStringRequest value) t4 st
       = (sendError 404 "String does not exist in the system", st)
    /\ app (deleteStringRequest value) t5 st
       = (sendError 404 "String does not exist in the system", st).
Proof.
  intros toLowerCase sha256_hex app value now t2 t3 t4 t5 st
    Happ Hvalue Hliteral Hid Hfree entry st1.
  destruct (applications_run toLowerCase sha256_hex app Happ)
    as (storage & routes & radix & nl & Hin & Hroutes & _ & ->).
  assert (Hget : dispatch routes (getStringRequest value)
                 = Some (GetString, [("stringValue"%string, value)])).
  { destruct Hroutes as [-> | ->].
    - apply dispatch_getString_ServerJs, Hvalue.
    - rewrite dispatch_getString_Part002 by exact Hvalue.
      rewrite bool_decide_eq_false_2 by exact Hliteral. reflexivity. }
  assert (Hdel : dispatch routes (deleteStringRequest value)
                 = Some (DeleteString, [("stringValue"%string, value)])).
  { destruct Hroutes as [-> | ->]; apply dispatch_deleteString, Hvalue. }
  assert (Hpost : dispatch routes (postRequest value) = Some (PostStrings, [])).
  { destruct Hroutes as [-> | ->]; reflexivity. }
  assert (Hparam : param [("stringValue"%string, value)] "stringValue" = value)
    by reflexivity.
  assert (Hheld : storeGet st1 (sha256_hex value) = Some entry).
  { unfold st1. rewrite storeGet_app_fresh, Hfree, bool_decide_eq_true_2; reflexivity. }
  unfold serve. rewrite Hget, Hdel, Hpost, Hparam.
  split.
  { rewrite (postStrings_run toLowerCase sha256_hex storage value now st Hin Hid).
    rewrite Hfree. reflexivity. }
  unfold getString, deleteString, bind. cbv beta iota zeta.
  change (Properties.sha256_hash (analyzeString toLowerCase sha256_hex value))
    with (sha256_hex value).
  rewrite !storage_getById_run, !storage_deleteById_run by exact Hin.
  rewrite Hheld, Hfree.
  unfold st1 at 3. rewrite (storeDelete_snoc_fresh st _ entry Hfree).
  repeat split.
Qed.

(** X25 on "Madam" and the empty store. *)
Lemma post_get_delete_scenario_witness :
  Part002.app asciiToLowerCase plainDigest Part001.storage
    (getStringRequest (js "Madam")) [] []
  = (sendError 404 "String does not exist in the system", []).
Proof.
  apply (post_get_delete_scenario asciiToLowerCase plainDigest
           (Part002.app asciiToLowerCase plainDigest Part001.storage)
           (js "Madam") [] [] [] [] [] []).
  - right. right. right. left. reflexivity.
  - discriminate.
  - discriminate.
  - discriminate.
  - reflexivity.
Defined.

(** X30 on the query "strings" and the empty store. *)
Lemma Part002_natural_language_served_witness :
  fst (Part002.app asciiToLowerCase plainDigest Part001.storage
         (naturalLanguageRequest ∅ (js "strings")) [] [])
  = sendError 422 "Query parsed but resulted in conflicting length filters"
  \/ exists data count parsed,
       fst (Part002.app asciiToLowerCase plainDigest Part001.storage
              (naturalLanguageRequest ∅ (js "strings")) [] [])
       = {| status := 200; body := InterpretedBody data count (js "strings") parsed |}.
Proof.
  apply (Part002_natural_language_served asciiToLowerCase plainDigest Part001.storage
           ∅ (js "strings") [] []).
  discriminate.
Defined.

(** * The natural-language rules over the routes *)

(** In [src/server.js] no request is given to the natural-language
    handler: a path that its route would take has two segments, the first
    "strings" and the second not empty, and [/strings/:stringValue],
    registered before it, takes every such path. *)
Lemma ServerJs_natural_language_unreachable (req : Request)
    (params : list (string * list Z)) :
  dispatch ServerJs.routes req <> Some (FilterByNaturalLanguage, params).
Proof.
  unfold ServerJs.routes. cbn [dispatch].
  destruct (method req); cbn [methodEq];
    destruct (path req) as [|s1 [|s2 [|s3 rest]]]; cbn [matchSegments fmap option_fmap option_map];
    repeat case_bool_decide; cbn [matchSegments fmap option_fmap option_map];
    try discriminate;
    destruct s2; try discriminate.
Qed.

(** In [part_002] the request reaches the handler, which answers 422 on
    a conflict and otherwise 200 with the stored records that pass the
    parsed filters, the query as sent and the filters parsed from its
    lower-cased text. *)
Lemma Part002_app_natural_language (toLowerCase sha256_hex : jsstring -> jsstring)
    (storage : Storage.api) (others : gmap string (list Z)) (q now : jsstring)
    (st : Store) :
  In storage storages -> q <> [] ->
  Part002.app toLowerCase sha256_hex storage (naturalLanguageRequest others q) now st
  = if Part002.conflicting (Part002.parseFilters (toLowerCase q))
    then (conflictResponse, st)
    else (interpretedResponse
            (List.filter (passesFilters (Part002.parseFilters (toLowerCase q)))
               (snd <$> st))
            q (Part002.parseFilters (toLowerCase q)), st).
Proof.
  intros Hstorage Hq. unfold Part002.app, serve.
  rewrite Part002_natural_language_dispatch.
  rewrite Part002_filterByNaturalLanguage_run by exact Hq.
  destruct (Part002.conflicting _); [reflexivity|].
  unfold respondInterpreted, bind. rewrite storage_getAll_run by exact Hstorage.
  reflexivity.
Qed.

(** C3, counterexample.  In "shorter than 5 or shorter than 7" the text
    "shorter than 7" occurs, and [part_002] sets [max_length] to 4, not
    to 6: the rule reads the first place it matches. *)
Lemma Part002_shorter_than_second_occurrence :
  includes shorterThanTwice (js "shorter than 7") = true
  /\ Filters.max_length (Part002.parseFilters shorterThanTwice) = Some 4
  /\ Filters.max_length (Part002.parseFilters shorterThanTwice) <> Some (7 - 1).
Proof. repeat split; vm_compute; congruence. Qed.

(** C3.  In [part_002], where requests reach the parser: when the
    lower-cased query reads "shorter than", white space and the digits of
    a number N below 2^53 at the first place the rule matches,
    [max_length] is N - 1 in the parsed filters, and the request is
    answered 422, on a conflict, or 200 with those filters. *)
Theorem Part002_shorter_than_leftmost :
  forall (toLowerCase sha256_hex : jsstring -> jsstring) (storage : Storage.api)
         (others : gmap string (list Z)) (q now pre ws ds rest : jsstring)
         (st : Store),
    let lq := pre ++ js "shorter than" ++ ws ++ ds ++ rest in
    In storage storages ->
    q <> [] -> toLowerCase q = lq ->
    ws <> [] -> forallb isWhiteSpace ws = true ->
    ds <> [] -> forallb isDigit ds = true ->
    safeInteger (digitsValue ds) ->
    (forall c, head rest = Some c -> isDigit c = false) ->
    (forall i, (i < List.length pre)%nat ->
               wordThenNumber (js "shorter than") (drop i lq) = None) ->
    Filters.max_length (Part002.parseFilters lq) = Some (digitsValue ds - 1)
    /\ (let r := fst (Part002.app toLowerCase sha256_hex storage
                        (naturalLanguageRequest others q) now st) in
        r = conflictResponse
        \/ exists data parsed,
             r = interpretedResponse data q parsed
             /\ Filters.max_length parsed = Some (digitsValue ds - 1)).
Proof.
  intros toLowerCase sha256_hex storage others q now pre ws ds rest st lq
    Hstorage Hq Hlower Hws Hspace Hds Hdigits _ Hstop Hleft.
  assert (Hmax : Filters.max_length (Part002.parseFilters lq)
                 = Some (digitsValue ds - 1)).
  { subst lq. rewrite Part002_parseFilters_max_length.
    rewrite regexSearch_wordThenNumber by assumption. reflexivity. }
  split; [exact Hmax|].
  cbv zeta. rewrite Part002_app_natural_language by assumption.
  rewrite Hlower.
  destruct (Part002.conflicting (Part002.parseFilters lq)); [left; reflexivity|].
  right. eexists _, _. split; [reflexivity|exact Hmax].
Qed.

(** C3 on the query "Strings SHORTER than 12 please" and the store that
    holds "Madam". *)
Lemma Part002_shorter_than_leftmost_witness :
  Filters.max_length (Part002.parseFilters (js "strings shorter than 12 please"))
  = Some 11
  /\ fst (Part002.app asciiToLowerCase plainDigest Part001.storage
            (naturalLanguageRequest ∅ (js "Strings SHORTER than 12 please")) [] madamStore)
     = interpretedResponse [madamEntry] (js "Strings SHORTER than 12 please")
         (Filters.set_max_length 11 Filters.empty).
Proof.
  pose proof (Part002_shorter_than_leftmost asciiToLowerCase plainDigest Part001.storage
                ∅ (js "Strings SHORTER than 12 please") [] (js "strings ") (js " ")
                (js "12") (js " please") madamStore) as H.
  cbv zeta in H.
  split; [apply H|vm_compute; reflexivity];
    try reflexivity; try discriminate.
  - right; left; reflexivity.
  - intros c [= <-]. reflexivity.
  - intros i Hi. simpl in Hi.
    do 8 (destruct i as [|i]; [vm_compute; reflexivity|]). lia.
Defined.

(** C7.  In [part_002], where requests reach the parser: a query whose
    lower-cased text contains "single word" or "one word" gets
    [word_count = 1] in the parsed filters, and the request is answered
    422, on a conflict, or 200 with those filters. *)
Theorem Part002_one_word_sets_word_count :
  forall (toLowerCase sha256_hex : jsstring -> jsstring) (storage : Storage.api)
         (others : gmap string (list Z)) (q now word pre post : jsstring)
         (st : Store),
    In storage storages ->
    word = js "single word" \/ word = js "one word" ->
    toLowerCase q = pre ++ word ++ post ->
    Filters.word_count (Part002.parseFilters (toLowerCase q)) = Some 1
    /\ (q <> [] ->
        let r := fst (Part002.app toLowerCase sha256_hex storage
                        (naturalLanguageRequest others q) now st) in
        r = conflictResponse
        \/ exists data parsed,
             r = interpretedResponse data q parsed
             /\ Filters.word_count parsed = Some 1).
Proof.
  intros toLowerCase sha256_hex storage others q now word pre post st
    Hstorage Hword Hlower.
  assert (Hcount : Filters.word_count (Part002.parseFilters (toLowerCase q)) = Some 1).
  { rewrite Hlower, Part002_parseFilters_word_count.
    assert (Hin : includes (pre ++ word ++ post) word = true)
      by (apply includes_true_iff; eauto).
    destruct Hword as [-> | ->]; rewrite Hin; [reflexivity|].
    rewrite orb_true_r. reflexivity. }
  split; [exact Hcount|].
  intros Hq. cbv zeta. rewrite Part002_app_natural_language by assumption.
  destruct (Part002.conflicting _); [left; reflexivity|].
  right. eexists _, _. split; [reflexivity|exact Hcount].
Qed.

(** C7 on the query "One Word strings". *)
Lemma Part002_one_word_sets_word_count_witness :
  Filters.word_count (Part002.parseFilters (asciiToLowerCase (js "One Word strings")))
  = Some 1.
Proof.
  apply (Part002_one_word_sets_word_count asciiToLowerCase plainDigest Part001.storage
           ∅ (js "One Word strings") [] (js "one word") [] (js " strings") []).
  - right; left; reflexivity.
  - right. reflexivity.
  - reflexivity.
Defined.

(** C8, counterexample.  "first vowel, contains z" contains "contains z",
    and [part_002] sets [contains_character] to "a": the rule for "first
    vowel" is applied after the rule for "contains" and overwrites what
    it found.  "contains a or contains b" contains "contains b", and
    [contains_character] is "a": the rule reads the first place it
    matches. *)
Lemma Part002_contains_overruled :
  (includes firstVowelContains (js "contains z") = true
   /\ Filters.contains_character (Part002.parseFilters firstVowelContains)
      = Some (js "a")
   /\ Filters.contains_character (Part002.parseFilters firstVowelContains)
      <> Some (js "z"))
  /\ (includes containsTwice (js "contains b") = true
      /\ Filters.contains_character (Part002.parseFilters containsTwice)
         = Some (js "a")
      /\ Filters.contains_character (Part002.parseFilters containsTwice)
         <> Some (js "b")).
Proof. repeat split; vm_compute; congruence. Qed.

(** C8.  In [part_002], where requests reach the parser: when "first
    vowel" does not occur in the lower-cased query and, at the first place
    the rule matches, the query reads "contains" or "letter", white space
    and a lower-case letter or digit [c] that no letter or digit follows,
    [contains_character] is [c] in the parsed filters, and the request is
    answered 422, on a conflict, or 200 with those filters.  A digit is
    taken as a letter is. *)
Theorem Part002_contains_single_character :
  forall (toLowerCase sha256_hex : jsstring -> jsstring) (storage : Storage.api)
         (others : gmap string (list Z)) (q now word pre ws rest : jsstring)
         (c : Z) (st : Store),
    let lq := pre ++ word ++ ws ++ c :: rest in
    In storage storages ->
    q <> [] -> toLowerCase q = lq ->
    word = js "contains" \/ word = js "letter" ->
    ws <> [] -> forallb isWhiteSpace ws = true ->
    isLowerAlnum c = true ->
    (forall c', head rest = Some c' -> isLowerAlnum c' = false) ->
    (forall i, (i < List.length pre)%nat ->
               containsOrLetter isLowerAlnum (drop i lq) = None) ->
    includes lq (js "first vowel") = false ->
    Filters.contains_character (Part002.parseFilters lq) = Some [c]
    /\ (let r := fst (Part002.app toLowerCase sha256_hex storage
                        (naturalLanguageRequest others q) now st) in
        r = conflictResponse
        \/ exists data parsed,
             r = interpretedResponse data q parsed
             /\ Filters.contains_character parsed = Some [c]).
Proof.
  intros toLowerCase sha256_hex storage others q now word pre ws rest c st lq
    Hstorage Hq Hlower Hword Hws Hspace Hclass _ Hleft Hvowel.
  assert (Hchar : Filters.contains_character (Part002.parseFilters lq) = Some [c]).
  { subst lq. rewrite Part002_parseFilters_contains_character, Hvowel.
    apply regexSearch_leftmost; [exact Hleft|].
    apply containsOrLetter_here; auto using isLowerAlnum_not_whiteSpace. }
  split; [exact Hchar|].
  cbv zeta. rewrite Part002_app_natural_language by assumption.
  rewrite Hlower.
  destruct (Part002.conflicting (Part002.parseFilters lq)); [left; reflexivity|].
  right. eexists _, _. split; [reflexivity|exact Hchar].
Qed.

(** C8 on the query "Contains 7" and the store that holds "Madam", which
    has no "7". *)
Lemma Part002_contains_single_character_witness :
  Filters.contains_character (Part002.parseFilters (js "contains 7")) = Some (js "7")
  /\ fst (Part002.app asciiToLowerCase plainDigest Part001.storage
            (naturalLanguageRequest ∅ (js "Contains 7")) [] madamStore)
     = interpretedResponse [] (js "Contains 7")
         (Filters.set_contains_character (js "7") Filters.empty).
Proof.
  pose proof (Part002_contains_single_character asciiToLowerCase plainDigest
                Part001.storage ∅ (js "Contains 7") [] (js "contains") [] (js " ") []
                55 madamStore) as H.
  cbv zeta in H.
  split; [apply H|vm_compute; reflexivity];
    try reflexivity; try discriminate.
  - right; left; reflexivity.
  - left. reflexivity.
  - intros i Hi. simpl in Hi. lia.
Defined.
